(** * Rigid registration pipeline: transform algebra and orchestration

    A shallow embedding of [src/registration.py], with the voxel clamp of
    [src/apply_reference_min.py] beside it.  The Python module works
    on files (transform files handled through SimpleITK, volumes handled
    through nibabel) and calls the ANTs command line tools.  The embedding
    keeps that shape: a world made of a file store and a log of the
    external commands that were run, a state-and-exception monad for the
    Python control flow, and the numpy, SimpleITK, nibabel and pathlib
    operations the module uses.

    Conventions.
    - Numbers: Python floats are idealised as exact rationals ([Qc]), so
      "equal within tolerance" is equality.
    - SimpleITK transforms are records of what their accessors return
      (matrix or rotation, translation, center, scale); a setter stores
      its argument.  The way ITK parameterises a rotation (Euler angles,
      versor) and its test that a matrix handed to [SetMatrix] is
      orthogonal are left out.
    - An ANTs program is a function from its command line, its
      environment and the files to the file it produces, or to a failure.
    - Only files are kept in the store, not directories. *)

From Stdlib Require Import QArith Qcanon Field Ascii String.
From stdpp Require Import base numbers option list strings pretty gmap fin_maps.

Local Open Scope Qc_scope.

(** ** numpy: 3-vectors and 3x3 matrices *)

Record vec3 := Vec3 { vx : Qc; vy : Qc; vz : Qc }.

(** A 3x3 matrix in row-major order, the order of SimpleITK's flat
    9-tuple; [reshape(3, 3)] and [flatten()] are the identity on it. *)
Record mat3 := Mat3 {
  m00 : Qc; m01 : Qc; m02 : Qc;
  m10 : Qc; m11 : Qc; m12 : Qc;
  m20 : Qc; m21 : Qc; m22 : Qc }.

Module np.

Definition zeros : vec3 := Vec3 0 0 0.

Definition eye : mat3 := Mat3 1 0 0  0 1 0  0 0 1.

Definition add (u v : vec3) : vec3 :=
  Vec3 (vx u + vx v) (vy u + vy v) (vz u + vz v).

Definition sub (u v : vec3) : vec3 :=
  Vec3 (vx u - vx v) (vy u - vy v) (vz u - vz v).

(** [np.dot] of a matrix and a vector. *)
Definition dotv (m : mat3) (v : vec3) : vec3 :=
  Vec3 (m00 m * vx v + m01 m * vy v + m02 m * vz v)
       (m10 m * vx v + m11 m * vy v + m12 m * vz v)
       (m20 m * vx v + m21 m * vy v + m22 m * vz v).

(** [np.dot] of two matrices. *)
Definition dot (a b : mat3) : mat3 :=
  Mat3 (m00 a * m00 b + m01 a * m10 b + m02 a * m20 b)
       (m00 a * m01 b + m01 a * m11 b + m02 a * m21 b)
       (m00 a * m02 b + m01 a * m12 b + m02 a * m22 b)
       (m10 a * m00 b + m11 a * m10 b + m12 a * m20 b)
       (m10 a * m01 b + m11 a * m11 b + m12 a * m21 b)
       (m10 a * m02 b + m11 a * m12 b + m12 a * m22 b)
       (m20 a * m00 b + m21 a * m10 b + m22 a * m20 b)
       (m20 a * m01 b + m21 a * m11 b + m22 a * m21 b)
       (m20 a * m02 b + m21 a * m12 b + m22 a * m22 b).

Definition transpose (a : mat3) : mat3 :=
  Mat3 (m00 a) (m10 a) (m20 a)
       (m01 a) (m11 a) (m21 a)
       (m02 a) (m12 a) (m22 a).

(** A scalar times a matrix, and a scalar times a vector. *)
Definition scale (k : Qc) (a : mat3) : mat3 :=
  Mat3 (k * m00 a) (k * m01 a) (k * m02 a)
       (k * m10 a) (k * m11 a) (k * m12 a)
       (k * m20 a) (k * m21 a) (k * m22 a).

Definition scalev (k : Qc) (v : vec3) : vec3 :=
  Vec3 (k * vx v) (k * vy v) (k * vz v).

(** [np.clip(x, lo, hi)] on one number: [minimum(maximum(x, lo), hi)]. *)
Definition clip (lo hi x : Qc) : Qc :=
  let y := if decide (x < lo) then lo else x in
  if decide (hi < y) then hi else y.

End np.

#[global] Instance vec3_eq_dec : EqDecision vec3.
Proof. solve_decision. Defined.

#[global] Instance mat3_eq_dec : EqDecision mat3.
Proof. solve_decision. Defined.

(** ** Python exceptions and results *)

Inductive exception :=
  | ValueError (msg : string)
  | AttributeError
  | IndexError
  | TypeError
  | RuntimeError
  | FileNotFoundError
  | CalledProcessError.

Inductive result (A : Type) :=
  | Ok (a : A)
  | Raise (e : exception).
Arguments Ok {A} a.
Arguments Raise {A} e.

(** Pure code that may raise: [x ← c; k] runs [k] when [c] returns. *)
#[global] Instance result_ret : MRet result := λ A (a : A), Ok a.

#[global] Instance result_bind : MBind result := λ A B (f : A → result B) r,
  match r with
  | Ok a => f a
  | Raise e => Raise e
  end.

(** A [for] loop over [l] that updates the loop variables [s]. *)
Fixpoint for_each {A S} (body : S → A → result S) (l : list A) (s : S) : result S :=
  match l with
  | [] => Ok s
  | a :: l' => s' ← body s a; for_each body l' s'
  end.

(** ** SimpleITK: the transform model *)

Module sitk.

(** [Euler3DTransform]: a rigid transform seen through its matrix,
    translation and center accessors. *)
Record Euler3DTransform := Euler3D {
  e_matrix : mat3;
  e_translation : vec3;
  e_center : vec3 }.

(** [Similarity3DTransform]: rotation (the versor, kept as its rotation
    matrix), translation, center and one isotropic scale. *)
Record Similarity3DTransform := Similarity3D {
  s_rotation : mat3;
  s_translation : vec3;
  s_center : vec3;
  s_scale : Qc }.

#[global] Instance Euler3DTransform_eq_dec : EqDecision Euler3DTransform.
Proof. solve_decision. Defined.

#[global] Instance Similarity3DTransform_eq_dec : EqDecision Similarity3DTransform.
Proof. solve_decision. Defined.

(** What [ReadTransform(...).Downcast()] can hand back. *)
#[warnings="-register-all"]
Inductive Transform :=
  | TEuler (e : Euler3DTransform)
  | TSimilarity (s : Similarity3DTransform)
  | TComposite (subs : list Transform).

(** The default constructors: identity transforms. *)
Definition Euler3DTransform_new : Euler3DTransform :=
  Euler3D np.eye np.zeros np.zeros.

Definition Similarity3DTransform_new : Similarity3DTransform :=
  Similarity3D np.eye np.zeros np.zeros 1.

(** Setters return the updated object. *)
Definition e_SetMatrix (m : mat3) (e : Euler3DTransform) :=
  Euler3D m (e_translation e) (e_center e).
Definition e_SetTranslation (t : vec3) (e : Euler3DTransform) :=
  Euler3D (e_matrix e) t (e_center e).
Definition e_SetCenter (c : vec3) (e : Euler3DTransform) :=
  Euler3D (e_matrix e) (e_translation e) c.

Definition s_SetScale (k : Qc) (s : Similarity3DTransform) :=
  Similarity3D (s_rotation s) (s_translation s) (s_center s) k.
Definition s_SetCenter (c : vec3) (s : Similarity3DTransform) :=
  Similarity3D (s_rotation s) (s_translation s) c (s_scale s).

(** The matrix of a similarity transform is its rotation times its
    scale. *)
Definition s_GetMatrix (s : Similarity3DTransform) : mat3 :=
  np.scale (s_scale s) (s_rotation s).

(** The accessors on a transform of unknown class: a composite
    transform has none of them. *)
Definition GetMatrix (t : Transform) : result mat3 :=
  match t with
  | TEuler e => Ok (e_matrix e)
  | TSimilarity s => Ok (s_GetMatrix s)
  | TComposite _ => Raise AttributeError
  end.

Definition GetCenter (t : Transform) : result vec3 :=
  match t with
  | TEuler e => Ok (e_center e)
  | TSimilarity s => Ok (s_center s)
  | TComposite _ => Raise AttributeError
  end.

Definition GetTranslation (t : Transform) : result vec3 :=
  match t with
  | TEuler e => Ok (e_translation e)
  | TSimilarity s => Ok (s_translation s)
  | TComposite _ => Raise AttributeError
  end.

(** [TransformPoint]: matrix * (x - center) + center + translation. *)
Definition e_TransformPoint (e : Euler3DTransform) (x : vec3) : vec3 :=
  np.add (np.add (np.dotv (e_matrix e) (np.sub x (e_center e)))
                 (e_center e))
         (e_translation e).

Definition s_TransformPoint (s : Similarity3DTransform) (x : vec3) : vec3 :=
  np.add (np.add (np.dotv (s_GetMatrix s) (np.sub x (s_center s)))
                 (s_center s))
         (s_translation s).

(** [GetInverse] of a similarity transform: it fails when the matrix is
    singular (scale zero); otherwise the inverse keeps the center, has
    the inverse matrix (transposed rotation, reciprocal scale) and the
    translation [- M^-1 t]. *)
Definition s_GetInverse (s : Similarity3DTransform)
  : result Similarity3DTransform :=
  if decide (s_scale s = 0) then Raise RuntimeError
  else
    let r := np.transpose (s_rotation s) in
    let k := / s_scale s in
    Ok (Similarity3D r
          (np.scalev (- k) (np.dotv r (s_translation s)))
          (s_center s) k).

(** [CompositeTransform.FlattenTransform]: nested composites are
    replaced by their own sub-transforms, recursively. *)
Fixpoint flatten_queue (t : Transform) : list Transform :=
  match t with
  | TComposite subs => flat_map flatten_queue subs
  | _ => [t]
  end.

Definition FlattenTransform (t : Transform) : result Transform :=
  match t with
  | TComposite subs => Ok (TComposite (flat_map flatten_queue subs))
  | _ => Raise AttributeError
  end.

Definition GetNthTransform (n : nat) (t : Transform) : result Transform :=
  match t with
  | TComposite subs =>
      match subs !! n with
      | Some u => Ok u
      | None => Raise RuntimeError
      end
  | _ => Raise AttributeError
  end.

(** *** Methods called on a transform whose class is not known *)

(** The inverse of a rigid transform: same center, transposed matrix,
    translation [- M^T t]. *)
Definition e_GetInverse (e : Euler3DTransform) : Euler3DTransform :=
  let r := np.transpose (e_matrix e) in
  Euler3D r (np.scalev (- (1)) (np.dotv r (e_translation e))) (e_center e).

(** [t.GetInverse().Downcast()]: a composite is inverted part by part,
    in reverse order. *)
Fixpoint GetInverse (t : Transform) : result Transform :=
  match t with
  | TEuler e => Ok (TEuler (e_GetInverse e))
  | TSimilarity s => s' ← s_GetInverse s; Ok (TSimilarity s')
  | TComposite subs =>
      let fix go (l : list Transform) : result (list Transform) :=
        match l with
        | [] => Ok []
        | u :: l' => u' ← GetInverse u; r ← go l'; Ok (r ++ [u'])
        end in
      subs' ← go subs; Ok (TComposite subs')
  end.

(** Only the similarity transform has a scale. *)
Definition GetScale (t : Transform) : result Qc :=
  match t with
  | TSimilarity s => Ok (s_scale s)
  | _ => Raise AttributeError
  end.

Definition SetScale (k : Qc) (t : Transform) : result Transform :=
  match t with
  | TSimilarity s => Ok (TSimilarity (s_SetScale k s))
  | _ => Raise AttributeError
  end.

End sitk.
Export sitk.

(** ** Python strings and pathlib *)

Module py.

(** [s.rfind(c)], [None] standing for -1. *)
Fixpoint rfind (c : ascii) (s : string) : option nat :=
  match s with
  | EmptyString => None
  | String a s' =>
      match rfind c s' with
      | Some i => Some (S i)
      | None => if Ascii.eqb a c then Some 0%nat else None
      end
  end.

(** [s.split(c)] for a one-character separator. *)
Fixpoint split (c : ascii) (s : string) : list string :=
  match s with
  | EmptyString => [EmptyString]
  | String a s' =>
      if Ascii.eqb a c then EmptyString :: split c s'
      else match split c s' with
           | h :: t => String a h :: t
           | [] => [String a EmptyString]
           end
  end.

Fixpoint lstrip (c : ascii) (s : string) : string :=
  match s with
  | String a s' => if Ascii.eqb a c then lstrip c s' else s
  | EmptyString => EmptyString
  end.

Fixpoint endswith_char (c : ascii) (s : string) : bool :=
  match s with
  | EmptyString => false
  | String a EmptyString => Ascii.eqb a c
  | String _ s' => endswith_char c s'
  end.

(** [s[i:]] and [s[:i]]. *)
Fixpoint drop (i : nat) (s : string) : string :=
  match i, s with
  | S k, String _ s' => drop k s'
  | _, _ => s
  end.

Fixpoint take (i : nat) (s : string) : string :=
  match i, s with
  | S k, String a s' => String a (take k s')
  | _, _ => EmptyString
  end.

(** [s.replace(old, new)]: every non-overlapping occurrence, from the
    left.  [skip] counts the characters of a matched occurrence that
    are still to be dropped. *)
Fixpoint replace_from (old new : string) (skip : nat) (s : string) : string :=
  match s with
  | EmptyString => EmptyString
  | String a s' =>
      match skip with
      | S k => replace_from old new k s'
      | O =>
          if String.prefix old s
          then new +:+ replace_from old new (String.length old - 1) s'
          else String a (replace_from old new 0 s')
      end
  end.

Fixpoint intersperse (new s : string) : string :=
  match s with
  | EmptyString => new
  | String a s' => new +:+ String a (intersperse new s')
  end.

Definition replace (old new s : string) : string :=
  match old with
  | EmptyString => intersperse new s
  | _ => replace_from old new 0 s
  end.

(** [sep.join(l)] with the empty separator. *)
Definition join (l : list string) : string := foldr String.append EmptyString l.

End py.

Module pathlib.

(** A path is the list of its parts below the root; every path of the
    pipeline is absolute, so [resolve()] leaves it as it is. *)
Definition Path := list string.

(** [p / part], for a single part. *)
Definition joinpath (p : Path) (part : string) : Path := p ++ [part].

Definition name (p : Path) : string := List.last p EmptyString.

Definition parent (p : Path) : Path := removelast p.

Definition name_suffix (nm : string) : string :=
  match py.rfind "." nm with
  | Some i =>
      if bool_decide (0 < i)%nat && bool_decide (i < String.length nm - 1)%nat
      then py.drop i nm else EmptyString
  | None => EmptyString
  end.

Definition name_stem (nm : string) : string :=
  match py.rfind "." nm with
  | Some i =>
      if bool_decide (0 < i)%nat && bool_decide (i < String.length nm - 1)%nat
      then py.take i nm else nm
  | None => nm
  end.

Definition name_suffixes (nm : string) : list string :=
  if py.endswith_char "." nm then []
  else map (String.append ".") (tail (py.split "." (py.lstrip "." nm))).

Definition suffix (p : Path) : string := name_suffix (name p).
Definition stem (p : Path) : string := name_stem (name p).
Definition suffixes (p : Path) : list string := name_suffixes (name p).

(** [str(p)]. *)
Definition str (p : Path) : string :=
  match p with
  | [] => "/"
  | _ => foldr (fun part acc => "/" +:+ part +:+ acc) EmptyString p
  end.

End pathlib.
Export pathlib.

Notation "p // part" := (joinpath p part) (at level 40, left associativity).

(** ** The world: files and the log of external commands *)

(** A volume: grid shape, voxel sizes and voxel values. *)
Record Image := mkImage {
  shape : list Z;
  zooms : list Qc;
  fdata : list Qc }.

Inductive File :=
  | FTransform (t : Transform)
  | FImage (img : Image).

Record World := mkWorld {
  files : gmap Path File;
  calls : list (list string) }.

Definition set_files (f : gmap Path File → gmap Path File) (w : World) : World :=
  mkWorld (f (files w)) (calls w).

(** Python code: it reads and changes the world, and returns a value or
    raises. *)
Definition M (A : Type) : Type := World → result A * World.

#[global] Instance M_ret : MRet M := λ A (a : A), (λ w, (Ok a, w)) : M A.

#[global] Instance M_bind : MBind M := λ A B (f : A → M B) (m : M A),
  (λ w, match m w with
        | (Ok a, w') => f a w'
        | (Raise e, w') => (Raise e, w')
        end) : M B.

Definition raise {A} (e : exception) : M A := λ w, (Raise e, w).

(** A pure computation that may raise. *)
Definition lift {A} (r : result A) : M A := λ w, (r, w).

Fixpoint mapM {A B} (f : A → M B) (l : list A) : M (list B) :=
  match l with
  | [] => mret []
  | a :: l' => b ← f a; bs ← mapM f l'; mret (b :: bs)
  end.

(** [ReadTransform(str(path)).Downcast()] *)
Definition ReadTransform (path : Path) : M Transform := λ w,
  match files w !! path with
  | Some (FTransform t) => (Ok t, w)
  | _ => (Raise RuntimeError, w)
  end.

(** [WriteTransform(t, str(path))] *)
Definition WriteTransform (t : Transform) (path : Path) : M unit := λ w,
  (Ok (), set_files <[path := FTransform t]> w).

(** [nib.Nifti1Image.load(path)] *)
Definition Nifti1Image_load (path : Path) : M Image := λ w,
  match files w !! path with
  | Some (FImage img) => (Ok img, w)
  | Some (FTransform _) => (Raise RuntimeError, w)
  | None => (Raise FileNotFoundError, w)
  end.

(** [img.to_filename(path)] *)
Definition to_filename (img : Image) (path : Path) : M unit := λ w,
  (Ok (), set_files <[path := FImage img]> w).

(** [tuple[i]] *)
Definition getitem {A} (l : list A) (i : nat) : result A :=
  match l !! i with
  | Some a => Ok a
  | None => Raise IndexError
  end.

(** ** [registration.py]: the transform functions *)

Open Scope string_scope.

(** The two files [extract_rigid_transform] writes, next to its input. *)
Definition invscale_path (transform : Path) : Path :=
  parent transform // (stem transform +:+ "_invscale" +:+ suffix transform).

Definition rigid_path (transform : Path) : Path :=
  parent transform // (stem transform +:+ "_rigid" +:+ suffix transform).

(** [extract_rigid_transform(transform, target)] *)
Definition extract_rigid_transform (transform target : Path) : M (Path * Path) :=
  fixed_obj ← Nifti1Image_load target;
  tfm ← ReadTransform transform;
  let inv_scale_tfm := Similarity3DTransform_new in
  inv ← lift (GetInverse tfm);
  k ← lift (GetScale inv);
  let inv_scale_tfm := s_SetScale k inv_scale_tfm in
  dim1 ← lift (getitem (shape fixed_obj) 1);
  dim2 ← lift (getitem (shape fixed_obj) 2);
  spacing0 ← lift (getitem (zooms fixed_obj) 0);
  let inv_scale_tfm :=
    s_SetCenter (Vec3 0
                      (Qc_of_Z (dim1 - dim2) * spacing0)
                      (Qc_of_Z (dim1 - dim2) * spacing0))
                inv_scale_tfm in
  _ ← WriteTransform (TSimilarity inv_scale_tfm) (invscale_path transform);
  tfm ← lift (SetScale 1 tfm);
  let rigid := Euler3DTransform_new in
  m ← lift (GetMatrix tfm);
  let rigid := e_SetMatrix m rigid in
  t ← lift (GetTranslation tfm);
  let rigid := e_SetTranslation t rigid in
  c ← lift (GetCenter tfm);
  let rigid := e_SetCenter c rigid in
  _ ← WriteTransform (TEuler rigid) (rigid_path transform);
  mret (invscale_path transform, rigid_path transform).

(** Where [extract_from_composite] writes. *)
Definition composite_rigid_path (composite : Path) : Path :=
  parent composite // py.replace "Composite.h5" "Rigid.mat" (name composite).

(** [extract_from_composite(composite)] *)
Definition extract_from_composite (composite : Path) : M Path :=
  comp_tfm ← ReadTransform composite;
  comp_tfm ← lift (FlattenTransform comp_tfm);
  first ← lift (GetNthTransform 0 comp_tfm);
  _ ← WriteTransform first (composite_rigid_path composite);
  mret (composite_rigid_path composite).

(** The body of the loop of [compose_transforms]; the loop variables are
    [mat] and [t], and [c] is never assigned in the loop. *)
Definition compose_body (c : vec3) (acc : mat3 * vec3) (curr_tx : Transform)
  : result (mat3 * vec3) :=
  let '(mat, t) := acc in
  mat_curr ← GetMatrix curr_tx;
  c_curr ← GetCenter curr_tx;
  t_curr ← GetTranslation curr_tx;
  let mat := np.dot mat_curr mat in
  let t := np.sub (np.add (np.add (np.dotv mat_curr (np.sub (np.add t c) c_curr))
                                  t_curr)
                          c_curr)
                  c in
  Ok (mat, t).

(** Lines 100 to 114 of [compose_transforms]: from the transforms that
    were read to the transform that is written. *)
Definition compose_loaded (transforms : list Transform) : result Euler3DTransform :=
  let mat := np.eye in
  let c := np.zeros in
  let t := np.zeros in
  '(mat, t) ← for_each (compose_body c) (reverse transforms) (mat, t);
  let output_tfm := Euler3DTransform_new in
  let output_tfm := e_SetMatrix mat output_tfm in
  let output_tfm := e_SetTranslation t output_tfm in
  let output_tfm := e_SetCenter c output_tfm in
  Ok output_tfm.

(** [compose_transforms(transform_list, output_filepath)] *)
Definition compose_transforms (transform_list : list Path) (output_filepath : Path)
  : M unit :=
  transforms ← mapM ReadTransform transform_list;
  output_tfm ← lift (compose_loaded transforms);
  WriteTransform (TEuler output_tfm) output_filepath.

(** [a.min()] and [a.max()]: numpy raises on an array without elements. *)
Definition np_min (a : list Qc) : result Qc :=
  match a with
  | [] => Raise (ValueError "zero-size array")
  | x :: a' => Ok (foldl (λ m y, if decide (y < m) then y else m) x a')
  end.

Definition np_max (a : list Qc) : result Qc :=
  match a with
  | [] => Raise (ValueError "zero-size array")
  | x :: a' => Ok (foldl (λ m y, if decide (m < y) then y else m) x a')
  end.

(** [clip_to_input_range(img_path, input_path)] *)
Definition clip_to_input_range (img_path input_path : Path) : M unit :=
  img_obj ← Nifti1Image_load img_path;
  input_obj ← Nifti1Image_load input_path;
  let img_data := fdata img_obj in
  let input_data := fdata input_obj in
  lo ← lift (np_min input_data);
  hi ← lift (np_max input_data);
  let img_data := map (np.clip lo hi) img_data in
  to_filename (mkImage (shape img_obj) (zooms img_obj) img_data) img_path.

(** ** The operating system: processes and files *)

(** The environment handed to the ANTs programs (the entries the script
    sets). *)
Definition Env := list (string * string).

(** An external program, as the script sees it: from its command line,
    its environment and the files, either the file it produces or a
    non-zero exit status ([None]). *)
Definition ExternalProgram := list string → Env → gmap Path File → option File.

Record Ants := mkAnts {
  ResampleImageBySpacing : ExternalProgram;
  antsAI : ExternalProgram;
  antsApplyTransforms : ExternalProgram;
  antsRegistration : ExternalProgram }.

(** [subprocess.run(cmd, check=True, env=env)] for a program whose
    product lands at [output]. *)
Definition subprocess_run (program : ExternalProgram) (output : Path)
    (cmd : list string) (env : Env) : M unit := λ w,
  match program cmd env (files w) with
  | Some f => (Ok (), mkWorld (<[output := f]> (files w)) (calls w ++ [cmd]))
  | None => (Raise CalledProcessError, mkWorld (files w) (calls w ++ [cmd]))
  end.

(** [path.exists()] *)
Definition path_exists (path : Path) : M bool := λ w,
  (Ok (bool_decide (is_Some (files w !! path))), w).

(** [src.rename(dst)] *)
Definition rename (src dst : Path) : M unit := λ w,
  match files w !! src with
  | Some f => (Ok (), set_files (λ fs, <[dst := f]> (delete src fs)) w)
  | None => (Raise FileNotFoundError, w)
  end.

(** [shutil.rmtree(dir)]: nothing at or below [dir] is left. *)
Definition rmtree (dir : Path) : M unit := λ w,
  (Ok (), set_files (filter (λ kv, ¬ dir `prefix_of` kv.1)) w).

(** ** [registration.py]: the command lines *)

Definition ResampleImageBySpacing_cmd (input output : Path) : list string :=
  [ "ResampleImageBySpacing"; "3"; str input; str output; "4"; "4"; "4"; "1" ].

Definition antsAI_cmd (temp_dir : Path) (transform : string) (output : Path)
  : list string :=
  [ "antsAI"; "-d"; "3"; "-m";
    "Mattes[" +:+ str (temp_dir // "fixed.nii.gz") +:+ ","
              +:+ str (temp_dir // "moving.nii.gz") +:+ ",32,Regular,0.20]";
    "-t"; transform; "-o"; str output;
    "-s"; "[20,0.12]"; "-g"; "[40,0x0x0]"; "-p"; "0"; "-c"; "10"; "-v" ].

Definition scale_image_cmd (image output inv_scale : Path) : list string :=
  [ "antsApplyTransforms"; "--dimensionality"; "3";
    "--input"; str image; "--reference-image"; str image;
    "--output"; str output; "--output-data-type"; "float";
    "--transform"; str inv_scale; "--verbose" ].

Definition scale_mask_cmd (mask output inv_scale : Path) : list string :=
  [ "antsApplyTransforms"; "--dimensionality"; "3";
    "--input"; str mask; "--reference-image"; str mask;
    "--output"; str output; "--interpolation"; "NearestNeighbor";
    "--output-data-type"; "float";
    "--transform"; str inv_scale; "--verbose" ].

(** ["[%s,None]" % arg] *)
Definition masks_format (arg : string) : string := "[" +:+ arg +:+ ",None]".

(** The stage-one [--masks] argument, as Python parses the source line
    ["[%s,None]" % "None" if fixed_regmask_to_use is None else
    fixed_regmask_to_use]: the [%] binds tighter than the conditional. *)
Definition stage_one_masks (fixed_regmask_to_use : option Path) : string :=
  match fixed_regmask_to_use with
  | None => masks_format "None"
  | Some regmask => str regmask
  end.

Definition reg_cmd (temp_dir init_transform_to_use fixed_to_use moving_image : Path)
    (fixed_regmask_to_use : option Path) (fixed_brainmask_to_use : Path)
  : list string :=
  [ "antsRegistration"; "--dimensionality"; "3"; "--random-seed"; "0";
    "--verbose"; "1"; "--output"; str (temp_dir // "output");
    "--initialize-transforms-per-stage"; "1";
    "--write-composite-transform"; "1";
    "--collapse-output-transforms"; "0";
    "--initial-moving-transform"; str init_transform_to_use;
    "--metric";
    "Mattes[" +:+ str fixed_to_use +:+ "," +:+ str moving_image
              +:+ ",1.0,32,Regular,0.25]";
    "--transform"; "Rigid[0.1]";
    "--convergence"; "[2000x1000x500x250,1e-6,10]";
    "--smoothing-sigmas"; "4x3x2x1";
    "--shrink-factors"; "16x8x4x2";
    "--masks"; stage_one_masks fixed_regmask_to_use;
    "--metric";
    "Mattes[" +:+ str fixed_to_use +:+ "," +:+ str moving_image
              +:+ ",1.0,32,Regular,0.25]";
    "--transform"; "Rigid[0.1]";
    "--convergence"; "[500x250x100,1e-6,10]";
    "--smoothing-sigmas"; "2x1x0";
    "--shrink-factors"; "4x2x1";
    "--masks"; masks_format (str fixed_brainmask_to_use) ].

Definition transform_cmd (temp_dir moving_image target_to_use transform_to_use : Path)
  : list string :=
  [ "antsApplyTransforms"; "--dimensionality"; "3";
    "--input"; str moving_image; "--reference-image"; str target_to_use;
    "--output"; str (temp_dir // "output.nii.gz");
    "--interpolation"; "BSpline[3]"; "--output-data-type"; "float";
    "--transform"; str transform_to_use; "--verbose" ].

(** ** [registration.py]: [main] *)

(** The parsed command line. *)
Record Namespace := mkNamespace {
  moving_image : Path;
  fixed_image : Path;
  fixed_brainmask : Path;
  fixed_regmask : option Path;
  fixed_transform : option Path;
  fixed_target : option Path;
  scale_fixed : bool;
  num_threads : Z;
  output_dir : Path }.

(** One round of the loop that checks that the given files exist. *)
Definition check_exists (arg : string * option Path) : M unit :=
  match arg.2 with
  | Some path =>
      found ← path_exists path;
      if (found : bool) then mret ()
      else raise (ValueError (py.replace "_" "-" arg.1 +:+ " does not exist."))
  | None => mret ()
  end.

Definition moving_stem (parsed_args : Namespace) : string :=
  hd EmptyString (py.split "." (name (moving_image parsed_args))).

Definition fixed_stem (parsed_args : Namespace) : string :=
  hd EmptyString (py.split "." (name (fixed_image parsed_args))).

Definition ext (parsed_args : Namespace) : string :=
  py.join (suffixes (moving_image parsed_args)).

Definition temp_dir (parsed_args : Namespace) : Path :=
  output_dir parsed_args // (moving_stem parsed_args +:+ "__" +:+ fixed_stem parsed_args).

(** Where the run publishes its image and its transform. *)
Definition published_image (parsed_args : Namespace) : Path :=
  output_dir parsed_args // (moving_stem parsed_args +:+ "_reg" +:+ ext parsed_args).

Definition published_transform (parsed_args : Namespace) (transform_to_use : Path)
  : Path :=
  output_dir parsed_args // (moving_stem parsed_args +:+ "_reg" +:+ suffix transform_to_use).

(** The initial registration: the [if parsed_args.scale_fixed] statement.
    It yields [init_transform_to_use], [fixed_to_use],
    [fixed_brainmask_to_use] and [fixed_regmask_to_use]. *)
Definition initial_registration (ants : Ants) (parsed_args : Namespace) (ants_env : Env)
  : M (Path * Path * Path * option Path) :=
  let temp_dir := temp_dir parsed_args in
  if scale_fixed parsed_args then
    _ ← subprocess_run (antsAI ants) (temp_dir // "ai.mat")
          (antsAI_cmd temp_dir "Similarity[0.1]" (temp_dir // "ai.mat")) ants_env;
    '(inv_scale, rigid_transform) ←
        extract_rigid_transform (temp_dir // "ai.mat") (fixed_image parsed_args);
    _ ← subprocess_run (antsApplyTransforms ants) (temp_dir // "scaled_fixed.nii.gz")
          (scale_image_cmd (fixed_image parsed_args)
             (temp_dir // "scaled_fixed.nii.gz") inv_scale) ants_env;
    _ ← subprocess_run (antsApplyTransforms ants)
          (temp_dir // "scaled_fixed_brainmask.nii.gz")
          (scale_mask_cmd (fixed_brainmask parsed_args)
             (temp_dir // "scaled_fixed_brainmask.nii.gz") inv_scale) ants_env;
    fixed_regmask_to_use ←
      match fixed_regmask parsed_args with
      | Some regmask =>
          _ ← subprocess_run (antsApplyTransforms ants)
                (temp_dir // "scaled_fixed_regmask.nii.gz")
                (scale_mask_cmd regmask
                   (temp_dir // "scaled_fixed_regmask.nii.gz") inv_scale) ants_env;
          mret (Some (temp_dir // "scaled_fixed_regmask.nii.gz"))
      | None => mret None
      end;
    mret (rigid_transform,
          temp_dir // "scaled_fixed.nii.gz",
          temp_dir // "scaled_fixed_brainmask.nii.gz",
          fixed_regmask_to_use)
  else
    _ ← subprocess_run (antsAI ants) (temp_dir // "ai_rigid.mat")
          (antsAI_cmd temp_dir "Rigid[0.1]" (temp_dir // "ai_rigid.mat")) ants_env;
    mret (temp_dir // "ai_rigid.mat",
          fixed_image parsed_args,
          fixed_brainmask parsed_args,
          fixed_regmask parsed_args).

(** Combining with the transform of the fixed image: the
    [if parsed_args.fixed_transform is not None] statement.  It yields
    [transform_to_use] and [target_to_use]. *)
Definition combine_transforms (parsed_args : Namespace) (rigid_mat : Path)
  : M (Path * option Path) :=
  let temp_dir := temp_dir parsed_args in
  match fixed_transform parsed_args with
  | Some prior =>
      _ ← compose_transforms [rigid_mat; prior] (temp_dir // "combined.mat");
      mret (temp_dir // "combined.mat", fixed_target parsed_args)
  | None =>
      mret (rigid_mat, Some (fixed_image parsed_args))
  end.

(** The first part of [main], down to the call of
    [extract_from_composite]: argument checks, the two subsampled copies,
    the initial registration and the two-stage registration.  It yields
    [rigid_mat].  Directories are not files of the store, so the two
    [mkdir] calls leave no trace.  Run with
    [--write-composite-transform 1] and the output prefix
    [temp_dir / "output"], [antsRegistration] leaves its transform in
    [temp_dir / "outputComposite.h5"]. *)
Definition register (ants : Ants) (parsed_args : Namespace) (ants_env : Env)
  : M Path :=
  _ ← mapM check_exists
        [ ("moving_image", Some (moving_image parsed_args));
          ("fixed_image", Some (fixed_image parsed_args));
          ("fixed_brainmask", Some (fixed_brainmask parsed_args));
          ("fixed_regmask", fixed_regmask parsed_args);
          ("fixed_transform", fixed_transform parsed_args);
          ("fixed_target", fixed_target parsed_args) ];
  _ ← (if xorb (bool_decide (fixed_transform parsed_args = None))
               (bool_decide (fixed_target parsed_args = None))
       then raise (ValueError
         "fixed-transform and fixed-target must both be specified or not at all.")
       else mret ());
  let temp_dir := temp_dir parsed_args in
  _ ← subprocess_run (ResampleImageBySpacing ants) (temp_dir // "moving.nii.gz")
        (ResampleImageBySpacing_cmd (moving_image parsed_args)
           (temp_dir // "moving.nii.gz")) ants_env;
  _ ← subprocess_run (ResampleImageBySpacing ants) (temp_dir // "fixed.nii.gz")
        (ResampleImageBySpacing_cmd (fixed_image parsed_args)
           (temp_dir // "fixed.nii.gz")) ants_env;
  '(init_transform_to_use, fixed_to_use, fixed_brainmask_to_use, fixed_regmask_to_use) ←
      initial_registration ants parsed_args ants_env;
  _ ← subprocess_run (antsRegistration ants) (temp_dir // "outputComposite.h5")
        (reg_cmd temp_dir init_transform_to_use fixed_to_use
           (moving_image parsed_args) fixed_regmask_to_use fixed_brainmask_to_use)
        ants_env;
  extract_from_composite (temp_dir // "outputComposite.h5").

(** The entries [main] adds to the environment of the ANTs programs. *)
Definition ants_env (parsed_args : Namespace) : Env :=
  [ ("NSLOTS", pretty (num_threads parsed_args)); ("ANTS_RANDOM_SEED", "1") ].

(** [main], after argument parsing. *)
Definition main (ants : Ants) (parsed_args : Namespace) : M unit :=
  let ants_env := ants_env parsed_args in
  let temp_dir := temp_dir parsed_args in
  rigid_mat ← register ants parsed_args ants_env;
  '(transform_to_use, target_to_use) ← combine_transforms parsed_args rigid_mat;
  target_to_use ← match target_to_use with
                  | Some target => mret target
                  | None => raise TypeError
                  end;
  _ ← subprocess_run (antsApplyTransforms ants) (temp_dir // "output.nii.gz")
        (transform_cmd temp_dir (moving_image parsed_args) target_to_use transform_to_use)
        ants_env;
  _ ← clip_to_input_range (temp_dir // "output.nii.gz") (moving_image parsed_args);
  _ ← rename (temp_dir // "output.nii.gz") (published_image parsed_args);
  _ ← rename transform_to_use (published_transform parsed_args transform_to_use);
  rmtree temp_dir.

(** ** The composition fold, in the words of the specification

    Accumulator rotation = identity, accumulator translation = origin,
    center held at the origin; the sequence is folded from its last
    element to its first, each [Tk] = (Rk, Ck, tk) giving
    [t' = Rk (t + c - Ck) + tk + Ck - c] and [R' = Rk R]. *)
Fixpoint spec_compose_fold (ts : list Euler3DTransform) : mat3 * vec3 :=
  match ts with
  | [] => (np.eye, np.zeros)
  | Tk :: later =>
      let '(R, t) := spec_compose_fold later in
      let c := np.zeros in
      (np.dot (e_matrix Tk) R,
       np.sub (np.add (np.add (np.dotv (e_matrix Tk)
                                       (np.sub (np.add t c) (e_center Tk)))
                              (e_translation Tk))
                      (e_center Tk))
              c)
  end.

(** ** Reading a run of [extract_rigid_transform]

    The call succeeds, returns the two paths it documents, and leaves
    [inv_scale] in the first file and [rigid] in the second. *)
Definition decomposes_into (w : World) (transform target : Path)
    (inv_scale : Similarity3DTransform) (rigid : Euler3DTransform) : Prop :=
  ∃ w' : World,
    extract_rigid_transform transform target w
    = (Ok (invscale_path transform, rigid_path transform), w')
    ∧ files w' !! invscale_path transform = Some (FTransform (TSimilarity inv_scale))
    ∧ files w' !! rigid_path transform = Some (FTransform (TEuler rigid)).

(** ** Files the run does not touch

    [w'] has what [w] has in every file that is not at or below [dir]. *)
Definition same_outside (dir : Path) (w w' : World) : Prop :=
  ∀ p, ¬ dir `prefix_of` p → files w' !! p = files w !! p.

(** ** Sample data *)

Definition q (n : Z) : Qc := Qc_of_Z n.

(** A quarter turn about the third axis. *)
Definition sample_A : Euler3DTransform :=
  Euler3D (Mat3 0 (q (-1)) 0   1 0 0   0 0 1)
          (Vec3 (q 4) (q 5) (q 6)) (Vec3 1 (q 2) (q 3)).

(** A quarter turn about the first axis. *)
Definition sample_B : Euler3DTransform :=
  Euler3D (Mat3 1 0 0   0 0 (q (-1))   0 1 0)
          (Vec3 0 1 0) (Vec3 (q 7) 0 (q (-1))).

(** A half turn about the second axis. *)
Definition sample_C : Euler3DTransform :=
  Euler3D (Mat3 (q (-1)) 0 0   0 1 0   0 0 (q (-1)))
          (Vec3 (q 3) (q 3) (q 3)) (Vec3 0 (q 5) (q 2)).

Definition sample_transforms : World :=
  mkWorld (<[ ["tfm"; "A.mat"] := FTransform (TEuler sample_A) ]>
          (<[ ["tfm"; "B.mat"] := FTransform (TEuler sample_B) ]>
          (<[ ["tfm"; "C.mat"] := FTransform (TEuler sample_C) ]>
          (<[ ["tfm"; "A_inverse.mat"] := FTransform (TEuler (e_GetInverse sample_A)) ]>
           ∅))))
          [].

(** A similarity transform of scale 2 and the fixed image it was
    estimated against. *)
Definition sample_similarity : Similarity3DTransform :=
  Similarity3D (e_matrix sample_A) (Vec3 (q 4) (q 5) (q 6)) (Vec3 1 (q 2) (q 3)) (q 2).

Definition sample_fixed : Image :=
  mkImage [193; 229; 193]%Z [Q2Qc (4 # 5); 1; 1] [0; q 10; q 3; q 7].

Definition sample_decompose : World :=
  mkWorld (<[ ["work"; "ai.mat"] := FTransform (TSimilarity sample_similarity) ]>
          (<[ ["data"; "fixed.nii.gz"] := FImage sample_fixed ]> ∅))
          [].

(** Three composite files: one wraps two rigid transforms, one wraps a
    single rigid transform inside a nested composite, one wraps a
    similarity transform. *)
Definition sample_composites : World :=
  mkWorld (<[ ["work"; "twoComposite.h5"] :=
                FTransform (TComposite [TEuler sample_A; TEuler sample_B]) ]>
          (<[ ["work"; "oneComposite.h5"] :=
                FTransform (TComposite [TComposite [TEuler sample_C]]) ]>
          (<[ ["work"; "scaledComposite.h5"] :=
                FTransform (TComposite [TSimilarity sample_similarity]) ]> ∅)))
          [].

(** A run of [main] against test doubles of the ANTs programs: a moving
    image registered to a fixed image that already has a transform to an
    atlas. *)
Definition sample_moving : Image :=
  mkImage [2; 2; 1]%Z [1; 1; 1] [q 1; q 5; q 2; q 9].

Definition sample_resampled : Image :=
  mkImage [2; 2; 1]%Z [1; 1; 1] [0; q 6; q 3; q 11].

Definition mock_ants : Ants :=
  mkAnts (λ _ _ _, Some (FImage sample_fixed))
         (λ _ _ _, Some (FTransform (TEuler sample_B)))
         (λ _ _ _, Some (FImage sample_resampled))
         (λ _ _ _, Some (FTransform (TComposite [TEuler sample_A]))).

Definition sample_request : Namespace :=
  mkNamespace ["data"; "fgatir.nii.gz"] ["data"; "mprage.nii.gz"]
    ["data"; "brainmask.nii.gz"] (Some ["data"; "regmask.nii.gz"])
    (Some ["atlas"; "mprage_reg.mat"]) (Some ["atlas"; "mprage_reg.nii.gz"])
    false 4 ["out"].

Definition sample_start : World :=
  mkWorld (<[ ["data"; "fgatir.nii.gz"] := FImage sample_moving ]>
          (<[ ["data"; "mprage.nii.gz"] := FImage sample_fixed ]>
          (<[ ["data"; "brainmask.nii.gz"] := FImage sample_fixed ]>
          (<[ ["data"; "regmask.nii.gz"] := FImage sample_fixed ]>
          (<[ ["atlas"; "mprage_reg.mat"] := FTransform (TEuler sample_C) ]>
          (<[ ["atlas"; "mprage_reg.nii.gz"] := FImage sample_fixed ]> ∅))))))
          [].

Definition sample_finish : World :=
  (main mock_ants sample_request sample_start).2.

(** ** Proof automation *)

(** Equalities of vectors and matrices, field by field. *)
Ltac vec_crush :=
  repeat match goal with
         | v : vec3 |- _ => destruct v
         | m : mat3 |- _ => destruct m
         end;
  unfold np.add, np.sub, np.dotv, np.dot, np.scale, np.scalev, np.transpose,
    np.eye, np.zeros;
  cbn; f_equal; ring.

(** ** Further sample data *)

(** A volume without voxels, beside one with voxels. *)
Definition sample_empty : Image := mkImage [0; 4; 4]%Z [1; 1; 1] [].

Definition sample_volumes : World :=
  mkWorld (<[ ["data"; "image.nii.gz"] := FImage sample_moving ]>
          (<[ ["data"; "reference.nii.gz"] := FImage sample_fixed ]>
          (<[ ["data"; "empty.nii.gz"] := FImage sample_empty ]> ∅)))
          [].

(** A similarity transform that cannot be inverted, and a rigid transform
    where a similarity transform is expected. *)
Definition sample_singular : Similarity3DTransform :=
  Similarity3D (e_matrix sample_A) (Vec3 (q 4) (q 5) (q 6)) (Vec3 1 (q 2) (q 3)) 0.

Definition sample_rejected : World :=
  mkWorld (<[ ["work"; "singular.mat"] := FTransform (TSimilarity sample_singular) ]>
          (<[ ["work"; "rigid.mat"] := FTransform (TEuler sample_A) ]>
          (<[ ["data"; "fixed.nii.gz"] := FImage sample_fixed ]> ∅)))
          [].

(** ** Rotations

    The invariant of a rigid transform's matrix: orthonormal, with
    determinant one. *)
Definition det3 (m : mat3) : Qc :=
  m00 m * (m11 m * m22 m - m12 m * m21 m)
  - m01 m * (m10 m * m22 m - m12 m * m20 m)
  + m02 m * (m10 m * m21 m - m11 m * m20 m).

Definition is_rotation (m : mat3) : Prop :=
  np.dot m (np.transpose m) = np.eye ∧ det3 m = 1.

(** A transform that is not a composite. *)
Definition is_leaf (t : Transform) : Prop :=
  match t with
  | TComposite _ => False
  | _ => True
  end.

(** Files that hold a composite among rigid transforms, and a path with
    no file. *)
Definition sample_mixed : World :=
  mkWorld (<[ ["tfm"; "A.mat"] := FTransform (TEuler sample_A) ]>
          (<[ ["tfm"; "nested.h5"] := FTransform (TComposite [TEuler sample_B]) ]>
          (<[ ["tfm"; "C.mat"] := FTransform (TEuler sample_C) ]> ∅)))
          [].

(** ** [apply_reference_min.py] *)

(** [apply_reference_min(data_path, ref_path, out_path)]; the assignment
    [data_np[data_np < ref_min] = ref_min] is the map over the voxels. *)
Definition apply_reference_min (data_path ref_path out_path : Path) : M unit :=
  data ← Nifti1Image_load data_path;
  let data_np := fdata data in
  ref ← Nifti1Image_load ref_path;
  let ref_np := fdata ref in
  ref_min ← lift (np_min ref_np);
  let data_np := map (λ x, if decide (x < ref_min) then ref_min else x) data_np in
  let out := mkImage (shape data) (zooms data) data_np in
  to_filename out out_path.

(** ** More on [main] *)

(** The files named on the command line, in the order [main] checks
    them. *)
Definition named_inputs (parsed_args : Namespace) : list (string * option Path) :=
  [ ("moving_image", Some (moving_image parsed_args));
    ("fixed_image", Some (fixed_image parsed_args));
    ("fixed_brainmask", Some (fixed_brainmask parsed_args));
    ("fixed_regmask", fixed_regmask parsed_args);
    ("fixed_transform", fixed_transform parsed_args);
    ("fixed_target", fixed_target parsed_args) ].

(** Whatever its result, [m] leaves every file that is not at or below
    [dir] as it was. *)
Definition writes_below (dir : Path) {A} (m : M A) : Prop :=
  ∀ w r w', m w = (r, w') → same_outside dir w w'.

(** The commands of a run, in the order they are issued. *)
Definition initial_commands (parsed_args : Namespace) : list (list string) :=
  let temp_dir := temp_dir parsed_args in
  if scale_fixed parsed_args then
    ([ antsAI_cmd temp_dir "Similarity[0.1]" (temp_dir // "ai.mat");
      scale_image_cmd (fixed_image parsed_args) (temp_dir // "scaled_fixed.nii.gz")
        (temp_dir // "ai_invscale.mat");
      scale_mask_cmd (fixed_brainmask parsed_args)
        (temp_dir // "scaled_fixed_brainmask.nii.gz") (temp_dir // "ai_invscale.mat") ]
    ++ (match fixed_regmask parsed_args with
       | Some regmask =>
           [ scale_mask_cmd regmask (temp_dir // "scaled_fixed_regmask.nii.gz")
               (temp_dir // "ai_invscale.mat") ]
       | None => []
       end)
    ++ [ reg_cmd temp_dir (temp_dir // "ai_rigid.mat")
           (temp_dir // "scaled_fixed.nii.gz") (moving_image parsed_args)
           (match fixed_regmask parsed_args with
            | Some _ => Some (temp_dir // "scaled_fixed_regmask.nii.gz")
            | None => None
            end)
           (temp_dir // "scaled_fixed_brainmask.nii.gz") ])%list
  else
    [ antsAI_cmd temp_dir "Rigid[0.1]" (temp_dir // "ai_rigid.mat");
      reg_cmd temp_dir (temp_dir // "ai_rigid.mat") (fixed_image parsed_args)
        (moving_image parsed_args) (fixed_regmask parsed_args)
        (fixed_brainmask parsed_args) ].

(** A request that names a prior transform and no prior target, and a
    registration program that fails. *)
Definition sample_request_no_target : Namespace :=
  mkNamespace ["data"; "fgatir.nii.gz"] ["data"; "mprage.nii.gz"]
    ["data"; "brainmask.nii.gz"] (Some ["data"; "regmask.nii.gz"])
    (Some ["atlas"; "mprage_reg.mat"]) None
    false 4 ["out"].

Definition failing_ants : Ants :=
  mkAnts (λ _ _ _, Some (FImage sample_fixed))
         (λ _ _ _, Some (FTransform (TEuler sample_B)))
         (λ _ _ _, Some (FImage sample_resampled))
         (λ _ _ _, None).

Definition sample_failed : World :=
  (main failing_ants sample_request sample_start).2.

(** * Properties *)

(** ** Linear algebra *)

Lemma dotv_eye (v : vec3) : np.dotv np.eye v = v.
Proof. vec_crush. Qed.

Lemma dotv_dot (a b : mat3) (v : vec3) :
  np.dotv (np.dot a b) v = np.dotv a (np.dotv b v).
Proof. vec_crush. Qed.

Lemma add_zeros_r (v : vec3) : np.add v np.zeros = v.
Proof. vec_crush. Qed.

Lemma scale_one (m : mat3) : np.scale 1 m = m.
Proof. vec_crush. Qed.

(** A transform centred at the origin is "matrix times point plus
    translation". *)
Lemma TransformPoint_origin (m : mat3) (t x : vec3) :
  e_TransformPoint (Euler3D m t np.zeros) x = np.add (np.dotv m x) t.
Proof. unfold e_TransformPoint. cbn. vec_crush. Qed.

(** One round of the fold: applying the new accumulator is applying the
    old accumulator and then [Tk]. *)
Lemma compose_round (Tk : Euler3DTransform) (R : mat3) (t x : vec3) :
  np.add (np.dotv (np.dot (e_matrix Tk) R) x)
         (np.sub (np.add (np.add (np.dotv (e_matrix Tk)
                                    (np.sub (np.add t np.zeros) (e_center Tk)))
                                 (e_translation Tk))
                         (e_center Tk))
                 np.zeros)
  = e_TransformPoint Tk (np.add (np.dotv R x) t).
Proof. destruct Tk as [m tk ck]. unfold e_TransformPoint. cbn. vec_crush. Qed.

(** ** The loop of [compose_transforms] *)

Lemma for_each_app {A S} (body : S → A → result S) (l1 l2 : list A) (s : S) :
  for_each body (l1 ++ l2) s = s' ← for_each body l1 s; for_each body l2 s'.
Proof.
  revert s. induction l1 as [|a l1 IH]; intros s; [reflexivity|].
  cbn. destruct (body s a) as [s'|e]; cbn; [apply IH | reflexivity].
Qed.

(** On rigid transforms the loop never raises, and it computes the fold of
    the specification. *)
Lemma compose_loop_rigid (ts : list Euler3DTransform) :
  for_each (compose_body np.zeros) (reverse (TEuler <$> ts)) (np.eye, np.zeros)
  = Ok (spec_compose_fold ts).
Proof.
  induction ts as [|Tk ts IH]; [reflexivity|].
  rewrite fmap_cons, reverse_cons, for_each_app, IH. cbn.
  destruct (spec_compose_fold ts) as [R t]. reflexivity.
Qed.

Lemma compose_loaded_rigid (ts : list Euler3DTransform) :
  compose_loaded (TEuler <$> ts)
  = Ok (Euler3D (spec_compose_fold ts).1 (spec_compose_fold ts).2 np.zeros).
Proof.
  unfold compose_loaded. rewrite compose_loop_rigid. cbn.
  destruct (spec_compose_fold ts) as [R t]. reflexivity.
Qed.

(** Applying the folded pair is applying the transforms from the last of
    the list to the first. *)
Lemma spec_compose_fold_apply (ts : list Euler3DTransform) (x : vec3) :
  np.add (np.dotv (spec_compose_fold ts).1 x) (spec_compose_fold ts).2
  = foldr e_TransformPoint x ts.
Proof.
  induction ts as [|Tk ts IH]; cbn.
  - rewrite dotv_eye. apply add_zeros_r.
  - destruct (spec_compose_fold ts) as [R t]. cbn in *.
    rewrite compose_round, IH. reflexivity.
Qed.

(** Reading the files of a list of paths. *)
Lemma mapM_ReadTransform (w : World) (paths : list Path) (ts : list Transform) :
  Forall2 (λ p t, files w !! p = Some (FTransform t)) paths ts →
  mapM ReadTransform paths w = (Ok ts, w).
Proof.
  induction 1 as [|p t paths ts Hp _ IH]; [reflexivity|].
  cbn. unfold mbind, M_bind, ReadTransform at 1. rewrite Hp, IH. reflexivity.
Qed.

Lemma compose_transforms_run (w : World) (paths : list Path)
    (ts : list Transform) (out : Path) (C : Euler3DTransform) :
  Forall2 (λ p t, files w !! p = Some (FTransform t)) paths ts →
  compose_loaded ts = Ok C →
  compose_transforms paths out w
  = (Ok (), set_files <[out := FTransform (TEuler C)]> w).
Proof.
  intros Hread HC. unfold compose_transforms, mbind, M_bind.
  rewrite (mapM_ReadTransform _ _ _ Hread). unfold lift. rewrite HC.
  reflexivity.
Qed.

(** ** Composition of rigid transforms *)

(** C1.  For every sequence [T0; ...; Tn-1] of rigid transform files
    (empty or not), [compose_transforms] succeeds and writes one rigid
    transform: it is the fold of the specification taken from the last
    element to the first, its center is the origin, and applied to any
    point it gives T0(T1(...(Tn-1(point)))). *)
Theorem compose_transforms_chain (w : World) (paths : list Path)
    (ts : list Euler3DTransform) (out : Path) :
  Forall2 (λ p T, files w !! p = Some (FTransform (TEuler T))) paths ts →
  ∃ composed : Euler3DTransform,
    compose_transforms paths out w
    = (Ok (), set_files <[out := FTransform (TEuler composed)]> w)
    ∧ (e_matrix composed, e_translation composed) = spec_compose_fold ts
    ∧ e_center composed = np.zeros
    ∧ ∀ x, e_TransformPoint composed x = foldr e_TransformPoint x ts.
Proof.
  intros Hread.
  exists (Euler3D (spec_compose_fold ts).1 (spec_compose_fold ts).2 np.zeros).
  split; [|split; [|split]].
  - apply compose_transforms_run with (ts := TEuler <$> ts).
    + apply Forall2_fmap_r. exact Hread.
    + apply compose_loaded_rigid.
  - cbn. destruct (spec_compose_fold ts); reflexivity.
  - reflexivity.
  - intros x. rewrite TransformPoint_origin. apply spec_compose_fold_apply.
Qed.

Lemma compose_transforms_chain_witness :
  Forall2 (λ p T, files sample_transforms !! p = Some (FTransform (TEuler T)))
    [["tfm"; "A.mat"]; ["tfm"; "B.mat"]; ["tfm"; "C.mat"]]
    [sample_A; sample_B; sample_C]
  ∧ ∃ composed : Euler3DTransform,
      compose_transforms [["tfm"; "A.mat"]; ["tfm"; "B.mat"]; ["tfm"; "C.mat"]]
        ["tfm"; "ABC.mat"] sample_transforms
      = (Ok (), set_files <[ ["tfm"; "ABC.mat"] := FTransform (TEuler composed)]>
                  sample_transforms)
      ∧ (e_matrix composed, e_translation composed)
        = spec_compose_fold [sample_A; sample_B; sample_C]
      ∧ e_center composed = np.zeros
      ∧ ∀ x, e_TransformPoint composed x
             = e_TransformPoint sample_A
                 (e_TransformPoint sample_B (e_TransformPoint sample_C x)).
Proof.
  assert (Forall2 (λ p T, files sample_transforms !! p
                          = Some (FTransform (TEuler T)))
            [["tfm"; "A.mat"]; ["tfm"; "B.mat"]; ["tfm"; "C.mat"]]
            [sample_A; sample_B; sample_C]) as Hfiles
    by (repeat constructor).
  split; [exact Hfiles|].
  exact (compose_transforms_chain sample_transforms
           [["tfm"; "A.mat"]; ["tfm"; "B.mat"]; ["tfm"; "C.mat"]]
           [sample_A; sample_B; sample_C] ["tfm"; "ABC.mat"] Hfiles).
Defined.

(** C2 (as the code has it).  Composing the empty sequence does not fail:
    the loop body never runs, and the transform written is the identity,
    with identity rotation, zero translation and center at the origin;
    it leaves every point where it is. *)
Theorem compose_transforms_empty (w : World) (out : Path) :
  compose_transforms [] out w
  = (Ok (),
     set_files <[out := FTransform (TEuler (Euler3D np.eye np.zeros np.zeros))]> w)
  ∧ ∀ x, e_TransformPoint (Euler3D np.eye np.zeros np.zeros) x = x.
Proof.
  split; [reflexivity|]. intros x. rewrite TransformPoint_origin, dotv_eye.
  apply add_zeros_r.
Qed.

(** C2, the sentence of the specification refuted on an empty store: no
    exception, and an identity transform in the output file. *)
Lemma compose_transforms_empty_counterexample :
  (compose_transforms [] ["combined.mat"] (mkWorld ∅ [])).1 = Ok ()
  ∧ files (compose_transforms [] ["combined.mat"] (mkWorld ∅ [])).2
      !! ["combined.mat"]
    = Some (FTransform (TEuler (Euler3D np.eye np.zeros np.zeros))).
Proof. split; [reflexivity|]. cbn. apply lookup_insert_eq. Qed.

(** A map "matrix times point plus translation" that fixes every point
    has the identity matrix and no translation. *)
Lemma affine_identity (m : mat3) (t : vec3) :
  (∀ x, np.add (np.dotv m x) t = x) → m = np.eye ∧ t = np.zeros.
Proof.
  intros H.
  assert (∀ x, vx (np.add (np.dotv m x) t) = vx x
               ∧ vy (np.add (np.dotv m x) t) = vy x
               ∧ vz (np.add (np.dotv m x) t) = vz x) as Hc
    by (intros x; rewrite H; auto).
  destruct (Hc (Vec3 0 0 0)) as (Hx & Hy & Hz).
  destruct (Hc (Vec3 1 0 0)) as (H00 & H10 & H20).
  destruct (Hc (Vec3 0 1 0)) as (H01 & H11 & H21).
  destruct (Hc (Vec3 0 0 1)) as (H02 & H12 & H22).
  clear H Hc. destruct m as [a00 a01 a02 a10 a11 a12 a20 a21 a22], t as [tx ty tz].
  cbv beta iota delta [np.add np.dotv np.eye np.zeros vx vy vz
                       m00 m01 m02 m10 m11 m12 m20 m21 m22] in *.
  assert (tx = 0) as Etx by (etrans; [|exact Hx]; ring).
  assert (ty = 0) as Ety by (etrans; [|exact Hy]; ring).
  assert (tz = 0) as Etz by (etrans; [|exact Hz]; ring).
  assert (a00 = 1) by (etrans; [|exact H00]; rewrite Etx; ring).
  assert (a10 = 0) by (etrans; [|exact H10]; rewrite Ety; ring).
  assert (a20 = 0) by (etrans; [|exact H20]; rewrite Etz; ring).
  assert (a01 = 0) by (etrans; [|exact H01]; rewrite Etx; ring).
  assert (a11 = 1) by (etrans; [|exact H11]; rewrite Ety; ring).
  assert (a21 = 0) by (etrans; [|exact H21]; rewrite Etz; ring).
  assert (a02 = 0) by (etrans; [|exact H02]; rewrite Etx; ring).
  assert (a12 = 0) by (etrans; [|exact H12]; rewrite Ety; ring).
  assert (a22 = 1) by (etrans; [|exact H22]; rewrite Etz; ring).
  subst. split; reflexivity.
Qed.

(** The inverse SimpleITK computes for a rigid transform with an
    orthonormal matrix undoes the transform. *)
Lemma e_GetInverse_right (T : Euler3DTransform) (x : vec3) :
  np.dot (e_matrix T) (np.transpose (e_matrix T)) = np.eye →
  e_TransformPoint T (e_TransformPoint (e_GetInverse T) x) = x.
Proof.
  intros Horth.
  assert (∀ v, np.dotv (e_matrix T) (np.dotv (np.transpose (e_matrix T)) v) = v)
    as Hv by (intros v; rewrite <- dotv_dot, Horth; apply dotv_eye).
  destruct T as [m t c]. unfold e_TransformPoint, e_GetInverse. cbn in *.
  replace (np.sub
             (np.add (np.add (np.dotv (np.transpose m) (np.sub x c)) c)
                     (np.scalev (- (1)) (np.dotv (np.transpose m) t))) c)
    with (np.dotv (np.transpose m) (np.sub (np.sub x c) t)) by vec_crush.
  rewrite Hv. vec_crush.
Qed.

(** Folding a transform with one that undoes it leaves the identity
    transform in the accumulator. *)
Lemma compose_loaded_inverse (T Tinv : Euler3DTransform) :
  (∀ x, e_TransformPoint T (e_TransformPoint Tinv x) = x) →
  compose_loaded [TEuler T; TEuler Tinv] = Ok (Euler3D np.eye np.zeros np.zeros).
Proof.
  intros Hinverse.
  change [TEuler T; TEuler Tinv] with (TEuler <$> [T; Tinv]).
  rewrite compose_loaded_rigid.
  destruct (affine_identity (spec_compose_fold [T; Tinv]).1
                            (spec_compose_fold [T; Tinv]).2) as [-> ->];
    [|reflexivity].
  intros x. rewrite spec_compose_fold_apply. apply Hinverse.
Qed.

(** In particular with the inverse SimpleITK computes, when the matrix is
    orthonormal. *)
Lemma compose_loaded_GetInverse (T : Euler3DTransform) :
  np.dot (e_matrix T) (np.transpose (e_matrix T)) = np.eye →
  compose_loaded [TEuler T; TEuler (e_GetInverse T)]
  = Ok (Euler3D np.eye np.zeros np.zeros).
Proof.
  intros Horth. apply compose_loaded_inverse. intros x.
  apply e_GetInverse_right, Horth.
Qed.

(** C7.  For every rigid transform [T] and every rigid transform [Tinv]
    that undoes it, [compose_transforms] on the files [T; Tinv] writes a
    transform with identity rotation and zero translation. *)
Theorem compose_with_inverse (w : World) (pT pInv out : Path)
    (T Tinv : Euler3DTransform) :
  files w !! pT = Some (FTransform (TEuler T)) →
  files w !! pInv = Some (FTransform (TEuler Tinv)) →
  (∀ x, e_TransformPoint T (e_TransformPoint Tinv x) = x) →
  ∃ composed : Euler3DTransform,
    compose_transforms [pT; pInv] out w
    = (Ok (), set_files <[out := FTransform (TEuler composed)]> w)
    ∧ e_matrix composed = np.eye
    ∧ e_translation composed = np.zeros.
Proof.
  intros HT HInv Hinverse.
  exists (Euler3D np.eye np.zeros np.zeros). split; [|split; reflexivity].
  apply compose_transforms_run with (ts := [TEuler T; TEuler Tinv]).
  - repeat constructor; assumption.
  - apply compose_loaded_inverse, Hinverse.
Qed.

Lemma compose_with_inverse_witness :
  (files sample_transforms !! ["tfm"; "A.mat"]
     = Some (FTransform (TEuler sample_A))
   ∧ files sample_transforms !! ["tfm"; "A_inverse.mat"]
     = Some (FTransform (TEuler (e_GetInverse sample_A)))
   ∧ ∀ x, e_TransformPoint sample_A (e_TransformPoint (e_GetInverse sample_A) x) = x)
  ∧ ∃ composed : Euler3DTransform,
      compose_transforms [["tfm"; "A.mat"]; ["tfm"; "A_inverse.mat"]]
        ["tfm"; "identity.mat"] sample_transforms
      = (Ok (), set_files <[ ["tfm"; "identity.mat"] := FTransform (TEuler composed)]>
                  sample_transforms)
      ∧ e_matrix composed = np.eye
      ∧ e_translation composed = np.zeros.
Proof.
  assert (∀ x, e_TransformPoint sample_A
                 (e_TransformPoint (e_GetInverse sample_A) x) = x) as Hinv.
  { intros x. apply e_GetInverse_right.
    apply (bool_decide_unpack _). vm_compute. exact I. }
  split; [split; [reflexivity | split; [reflexivity | exact Hinv]]|].
  apply (compose_with_inverse sample_transforms ["tfm"; "A.mat"]
           ["tfm"; "A_inverse.mat"] ["tfm"; "identity.mat"]
           sample_A (e_GetInverse sample_A));
    [reflexivity | reflexivity | exact Hinv].
Defined.

(** ** Paths *)

Lemma parent_joinpath (p : Path) (part : string) : parent (p // part) = p.
Proof. apply removelast_last. Qed.

Lemma name_joinpath (p : Path) (part : string) : name (p // part) = part.
Proof. apply last_last. Qed.

Lemma string_app_inv_head (a x y : string) : a +:+ x = a +:+ y → x = y.
Proof. induction a as [|c a IH]; cbn; [auto | intros [= H]; auto]. Qed.

Lemma joinpath_inj (p : Path) (x y : string) : p // x = p // y → x = y.
Proof. unfold joinpath. intros H. apply app_inv_head in H. congruence. Qed.

Lemma invscale_path_ne_rigid_path (transform : Path) :
  invscale_path transform ≠ rigid_path transform.
Proof.
  unfold invscale_path, rigid_path. intros H.
  apply joinpath_inj, string_app_inv_head in H. discriminate H.
Qed.

(** ** Decomposition of a similarity transform *)

(** The inverse SimpleITK computes for a similarity transform with an
    orthonormal rotation and a scale other than zero undoes the
    transform, and its scale is the reciprocal scale. *)
Lemma s_GetInverse_right (s inverse : Similarity3DTransform) (x : vec3) :
  np.dot (s_rotation s) (np.transpose (s_rotation s)) = np.eye →
  s_GetInverse s = Ok inverse →
  s_TransformPoint s (s_TransformPoint inverse x) = x
  ∧ s_scale inverse = / s_scale s.
Proof.
  intros Horth. unfold s_GetInverse.
  destruct (decide (s_scale s = 0)) as [|Hk]; [discriminate|].
  intros [= <-]. split; [|reflexivity].
  assert (∀ v, np.dotv (s_rotation s) (np.dotv (np.transpose (s_rotation s)) v) = v)
    as Hv by (intros v; rewrite <- dotv_dot, Horth; apply dotv_eye).
  destruct s as [r t c k]. unfold s_TransformPoint, s_GetMatrix. cbn in *.
  replace (np.dotv (np.scale k r)
             (np.sub
                (np.add
                   (np.add (np.dotv (np.scale (/ k) (np.transpose r)) (np.sub x c)) c)
                   (np.scalev (- / k) (np.dotv (np.transpose r) t))) c))
    with (np.scalev (k * / k)
            (np.dotv r (np.dotv (np.transpose r) (np.sub (np.sub x c) t))))
    by vec_crush.
  rewrite Hv, Qcmult_inv_r by exact Hk. vec_crush.
Qed.

Lemma sample_scale_nonzero : s_scale sample_similarity ≠ 0.
Proof. apply (bool_decide_unpack _). vm_compute. exact I. Qed.

Section Decomposition.

(** A similarity transform with an invertible scale in the file
    [transform], and in the file [target] the fixed image, of shape
    (dim0, dim1, dim2) and first-axis voxel spacing [spacing0]. *)
Context (w : World) (transform target : Path).
Context (s : Similarity3DTransform) (img : Image).
Context (dim0 dim1 dim2 : Z) (spacing0 : Qc).
Hypothesis target_holds : files w !! target = Some (FImage img).
Hypothesis transform_holds :
  files w !! transform = Some (FTransform (TSimilarity s)).
Hypothesis image_shape : shape img = [dim0; dim1; dim2].
Hypothesis image_spacing : zooms img !! 0%nat = Some spacing0.
Hypothesis scale_invertible : s_scale s ≠ 0.

(** The whole effect of [extract_rigid_transform] on such input. *)
Lemma extract_rigid_transform_run :
  extract_rigid_transform transform target w
  = (Ok (invscale_path transform, rigid_path transform),
     set_files
       (λ fs, <[rigid_path transform :=
                  FTransform (TEuler (Euler3D (s_rotation s) (s_translation s)
                                              (s_center s)))]>
              (<[invscale_path transform :=
                  FTransform (TSimilarity
                    (Similarity3D np.eye np.zeros
                       (Vec3 0 (Qc_of_Z (dim1 - dim2) * spacing0)
                               (Qc_of_Z (dim1 - dim2) * spacing0))
                       (/ s_scale s)))]> fs))
       w).
Proof.
  unfold extract_rigid_transform, mbind, M_bind, Nifti1Image_load, ReadTransform.
  rewrite target_holds, transform_holds. unfold lift, getitem. cbn.
  unfold s_GetInverse.
  destruct (decide (s_scale s = 0)) as [|_]; [contradiction|].
  cbn. rewrite image_shape, image_spacing. cbn.
  unfold WriteTransform, set_files, s_GetMatrix. cbn.
  rewrite scale_one. reflexivity.
Qed.

Lemma extract_rigid_transform_decomposes :
  decomposes_into w transform target
    (Similarity3D np.eye np.zeros
       (Vec3 0 (Qc_of_Z (dim1 - dim2) * spacing0) (Qc_of_Z (dim1 - dim2) * spacing0))
       (/ s_scale s))
    (Euler3D (s_rotation s) (s_translation s) (s_center s)).
Proof.
  eexists. split; [exact extract_rigid_transform_run|]. cbn. split.
  - rewrite lookup_insert_ne by (apply not_eq_sym, invscale_path_ne_rigid_path).
    apply lookup_insert_eq.
  - apply lookup_insert_eq.
Qed.

(** C4 (as the code has it).  The scale of the inverse-scale transform
    is the scale of the inverse of the input transform, that is [1 / s]
    for an input of scale [s]: the reciprocal is taken once, by the
    inversion. *)
Theorem inverse_scale_is_scale_of_inverse :
  ∃ inv_scale rigid inverse,
    decomposes_into w transform target inv_scale rigid
    ∧ s_GetInverse s = Ok inverse
    ∧ s_scale inv_scale = s_scale inverse
    ∧ s_scale inv_scale = / s_scale s.
Proof.
  unfold s_GetInverse. destruct (decide (s_scale s = 0)) as [|_]; [contradiction|].
  do 3 eexists. split; [exact extract_rigid_transform_decomposes|].
  repeat split.
Qed.

(** C5.  For a fixed image of shape (dim0, dim1, dim2) and first-axis
    voxel spacing spacing0, the center of the inverse-scale transform is
    exactly (0, (dim1 - dim2) spacing0, (dim1 - dim2) spacing0). *)
Theorem inverse_scale_center :
  ∃ inv_scale rigid,
    decomposes_into w transform target inv_scale rigid
    ∧ s_center inv_scale
      = Vec3 0 (Qc_of_Z (dim1 - dim2) * spacing0) (Qc_of_Z (dim1 - dim2) * spacing0).
Proof.
  do 2 eexists. split; [exact extract_rigid_transform_decomposes | reflexivity].
Qed.

(** C6.  The rigid transform carries the rotation, translation and
    center of the input: its matrix is the input's matrix once the scale
    is reset to 1, so it is the same whatever the input's scale was, and
    for an input of scale 1 it is the input's own matrix. *)
Theorem rigid_component_has_no_scale :
  ∃ inv_scale rigid,
    decomposes_into w transform target inv_scale rigid
    ∧ e_matrix rigid = s_GetMatrix (s_SetScale 1 s)
    ∧ e_matrix rigid = s_rotation s
    ∧ e_translation rigid = s_translation s
    ∧ e_center rigid = s_center s
    ∧ (∀ x, e_TransformPoint rigid x = s_TransformPoint (s_SetScale 1 s) x)
    ∧ (s_scale s = 1 →
       e_matrix rigid = s_GetMatrix s
       ∧ ∀ x, e_TransformPoint rigid x = s_TransformPoint s x).
Proof.
  do 2 eexists. split; [exact extract_rigid_transform_decomposes|].
  cbn [e_matrix e_translation e_center].
  assert (s_GetMatrix (s_SetScale 1 s) = s_rotation s) as Hreset
    by (unfold s_GetMatrix; cbn; apply scale_one).
  split; [auto|]. split; [reflexivity|]. split; [reflexivity|].
  split; [reflexivity|]. split.
  - intros x. unfold e_TransformPoint, s_TransformPoint. rewrite Hreset.
    reflexivity.
  - intros Hunit.
    assert (s_GetMatrix s = s_rotation s) as Hm
      by (unfold s_GetMatrix; rewrite Hunit; apply scale_one).
    split; [auto|]. intros x. unfold e_TransformPoint, s_TransformPoint.
    rewrite Hm. reflexivity.
Qed.

(** C10.  The inverse-scale transform carries a scale and a center only:
    its rotation is the identity and its translation is zero, whatever
    the rotation and the translation of the input are; its matrix is the
    scale on the diagonal. *)
Theorem inverse_scale_has_no_rotation_or_translation :
  ∃ inv_scale rigid,
    decomposes_into w transform target inv_scale rigid
    ∧ s_rotation inv_scale = np.eye
    ∧ s_translation inv_scale = np.zeros
    ∧ s_GetMatrix inv_scale = np.scale (/ s_scale s) np.eye.
Proof.
  do 2 eexists. split; [exact extract_rigid_transform_decomposes|].
  repeat split.
Qed.

End Decomposition.

(** The sample: a similarity transform of scale 2 against an image of
    shape (193, 229, 193) and spacing 4/5. *)
Lemma inverse_scale_is_scale_of_inverse_witness :
  (files sample_decompose !! ["data"; "fixed.nii.gz"] = Some (FImage sample_fixed)
   ∧ files sample_decompose !! ["work"; "ai.mat"]
     = Some (FTransform (TSimilarity sample_similarity))
   ∧ shape sample_fixed = [193; 229; 193]%Z
   ∧ zooms sample_fixed !! 0%nat = Some (Q2Qc (4 # 5))
   ∧ s_scale sample_similarity ≠ 0)
  ∧ ∃ inv_scale rigid inverse,
      decomposes_into sample_decompose ["work"; "ai.mat"] ["data"; "fixed.nii.gz"]
        inv_scale rigid
      ∧ s_GetInverse sample_similarity = Ok inverse
      ∧ s_scale inv_scale = s_scale inverse
      ∧ s_scale inv_scale = / s_scale sample_similarity.
Proof.
  split.
  - repeat split; try reflexivity. exact sample_scale_nonzero.
  - exact (inverse_scale_is_scale_of_inverse sample_decompose ["work"; "ai.mat"]
             ["data"; "fixed.nii.gz"] sample_similarity sample_fixed
             193 229 193 (Q2Qc (4 # 5))
             eq_refl eq_refl eq_refl eq_refl sample_scale_nonzero).
Defined.

(** C4, the sentence of the specification refuted on a transform of
    scale 2: the inverse has scale 1/2, the sentence asks for the
    reciprocal of that (2), and the inverse-scale transform has scale
    1/2. *)
Lemma inverse_scale_reciprocal_counterexample :
  ∃ inv_scale rigid inverse,
    decomposes_into sample_decompose ["work"; "ai.mat"] ["data"; "fixed.nii.gz"]
      inv_scale rigid
    ∧ s_GetInverse sample_similarity = Ok inverse
    ∧ s_scale inverse = / q 2
    ∧ s_scale inv_scale = / q 2
    ∧ s_scale inv_scale ≠ / s_scale inverse.
Proof.
  exists (Similarity3D np.eye np.zeros
            (Vec3 0 (Qc_of_Z (229 - 193) * Q2Qc (4 # 5))
                    (Qc_of_Z (229 - 193) * Q2Qc (4 # 5)))
            (/ q 2)),
         (Euler3D (s_rotation sample_similarity) (s_translation sample_similarity)
                  (s_center sample_similarity)),
         (Similarity3D (np.transpose (s_rotation sample_similarity))
            (np.scalev (- / q 2)
               (np.dotv (np.transpose (s_rotation sample_similarity))
                        (s_translation sample_similarity)))
            (s_center sample_similarity) (/ q 2)).
  split; [|split; [|split; [|split]]].
  - exact (extract_rigid_transform_decomposes sample_decompose ["work"; "ai.mat"]
             ["data"; "fixed.nii.gz"] sample_similarity sample_fixed
             193 229 193 (Q2Qc (4 # 5))
             eq_refl eq_refl eq_refl eq_refl sample_scale_nonzero).
  - unfold s_GetInverse.
    destruct (decide (s_scale sample_similarity = 0)) as [E|_];
      [destruct (sample_scale_nonzero E) | reflexivity].
  - reflexivity.
  - reflexivity.
  - cbn [s_scale]. apply (bool_decide_unpack _). vm_compute. exact I.
Qed.

Lemma inverse_scale_center_witness :
  (files sample_decompose !! ["data"; "fixed.nii.gz"] = Some (FImage sample_fixed)
   ∧ files sample_decompose !! ["work"; "ai.mat"]
     = Some (FTransform (TSimilarity sample_similarity))
   ∧ shape sample_fixed = [193; 229; 193]%Z
   ∧ zooms sample_fixed !! 0%nat = Some (Q2Qc (4 # 5))
   ∧ s_scale sample_similarity ≠ 0)
  ∧ ∃ inv_scale rigid,
      decomposes_into sample_decompose ["work"; "ai.mat"] ["data"; "fixed.nii.gz"]
        inv_scale rigid
      ∧ s_center inv_scale
        = Vec3 0 (Qc_of_Z (229 - 193) * Q2Qc (4 # 5))
                 (Qc_of_Z (229 - 193) * Q2Qc (4 # 5)).
Proof.
  split.
  - repeat split; try reflexivity. exact sample_scale_nonzero.
  - exact (inverse_scale_center sample_decompose ["work"; "ai.mat"]
             ["data"; "fixed.nii.gz"] sample_similarity sample_fixed
             193 229 193 (Q2Qc (4 # 5))
             eq_refl eq_refl eq_refl eq_refl sample_scale_nonzero).
Defined.

Lemma rigid_component_has_no_scale_witness :
  (files sample_decompose !! ["data"; "fixed.nii.gz"] = Some (FImage sample_fixed)
   ∧ files sample_decompose !! ["work"; "ai.mat"]
     = Some (FTransform (TSimilarity sample_similarity))
   ∧ shape sample_fixed = [193; 229; 193]%Z
   ∧ zooms sample_fixed !! 0%nat = Some (Q2Qc (4 # 5))
   ∧ s_scale sample_similarity ≠ 0)
  ∧ ∃ inv_scale rigid,
      decomposes_into sample_decompose ["work"; "ai.mat"] ["data"; "fixed.nii.gz"]
        inv_scale rigid
      ∧ e_matrix rigid = s_GetMatrix (s_SetScale 1 sample_similarity)
      ∧ e_matrix rigid = s_rotation sample_similarity
      ∧ e_translation rigid = s_translation sample_similarity
      ∧ e_center rigid = s_center sample_similarity
      ∧ (∀ x, e_TransformPoint rigid x
              = s_TransformPoint (s_SetScale 1 sample_similarity) x)
      ∧ (s_scale sample_similarity = 1 →
         e_matrix rigid = s_GetMatrix sample_similarity
         ∧ ∀ x, e_TransformPoint rigid x = s_TransformPoint sample_similarity x).
Proof.
  split.
  - repeat split; try reflexivity. exact sample_scale_nonzero.
  - exact (rigid_component_has_no_scale sample_decompose ["work"; "ai.mat"]
             ["data"; "fixed.nii.gz"] sample_similarity sample_fixed
             193 229 193 (Q2Qc (4 # 5))
             eq_refl eq_refl eq_refl eq_refl sample_scale_nonzero).
Defined.

Lemma inverse_scale_has_no_rotation_or_translation_witness :
  (files sample_decompose !! ["data"; "fixed.nii.gz"] = Some (FImage sample_fixed)
   ∧ files sample_decompose !! ["work"; "ai.mat"]
     = Some (FTransform (TSimilarity sample_similarity))
   ∧ shape sample_fixed = [193; 229; 193]%Z
   ∧ zooms sample_fixed !! 0%nat = Some (Q2Qc (4 # 5))
   ∧ s_scale sample_similarity ≠ 0)
  ∧ ∃ inv_scale rigid,
      decomposes_into sample_decompose ["work"; "ai.mat"] ["data"; "fixed.nii.gz"]
        inv_scale rigid
      ∧ s_rotation inv_scale = np.eye
      ∧ s_translation inv_scale = np.zeros
      ∧ s_GetMatrix inv_scale = np.scale (/ s_scale sample_similarity) np.eye.
Proof.
  split.
  - repeat split; try reflexivity. exact sample_scale_nonzero.
  - exact (inverse_scale_has_no_rotation_or_translation sample_decompose
             ["work"; "ai.mat"] ["data"; "fixed.nii.gz"] sample_similarity
             sample_fixed 193 229 193 (Q2Qc (4 # 5))
             eq_refl eq_refl eq_refl eq_refl sample_scale_nonzero).
Defined.

(** ** Extraction from a composite transform *)

Lemma extract_from_composite_run (w : World) (composite : Path)
    (subs : list Transform) (first : Transform) (others : list Transform) :
  files w !! composite = Some (FTransform (TComposite subs)) →
  flat_map flatten_queue subs = first :: others →
  extract_from_composite composite w
  = (Ok (composite_rigid_path composite),
     set_files <[composite_rigid_path composite := FTransform first]> w).
Proof.
  intros Hfile Hflat.
  unfold extract_from_composite, mbind, M_bind, ReadTransform.
  rewrite Hfile. cbn. rewrite Hflat. reflexivity.
Qed.

(** C3 (as the code has it).  For every composite transform with at least
    one sub-transform left after flattening, [extract_from_composite]
    succeeds and writes the first of them unchanged, whatever its class
    and however many follow it; so it returns the wrapped transform when
    exactly one rigid sub-transform is left. *)
Theorem extract_from_composite_first (w : World) (composite : Path)
    (subs : list Transform) (first : Transform) (others : list Transform) :
  files w !! composite = Some (FTransform (TComposite subs)) →
  flat_map flatten_queue subs = first :: others →
  ∃ w' : World,
    extract_from_composite composite w = (Ok (composite_rigid_path composite), w')
    ∧ files w' !! composite_rigid_path composite = Some (FTransform first).
Proof.
  intros Hfile Hflat. eexists. split.
  - eapply extract_from_composite_run; eassumption.
  - cbn. apply lookup_insert_eq.
Qed.

Lemma extract_from_composite_first_witness :
  (files sample_composites !! ["work"; "oneComposite.h5"]
     = Some (FTransform (TComposite [TComposite [TEuler sample_C]]))
   ∧ flat_map flatten_queue [TComposite [TEuler sample_C]] = [TEuler sample_C])
  ∧ ∃ w' : World,
      extract_from_composite ["work"; "oneComposite.h5"] sample_composites
      = (Ok (composite_rigid_path ["work"; "oneComposite.h5"]), w')
      ∧ files w' !! composite_rigid_path ["work"; "oneComposite.h5"]
        = Some (FTransform (TEuler sample_C)).
Proof.
  split; [split; reflexivity|].
  apply (extract_from_composite_first sample_composites ["work"; "oneComposite.h5"]
           [TComposite [TEuler sample_C]] (TEuler sample_C) []);
    reflexivity.
Defined.

(** C3, the sentence of the specification refuted: a composite that
    wraps two rigid transforms
    is accepted and its first transform is written, and a composite that
    wraps a similarity transform is accepted and that transform is
    written. *)
Lemma extract_from_composite_counterexample :
  (FlattenTransform (TComposite [TEuler sample_A; TEuler sample_B])
   = Ok (TComposite [TEuler sample_A; TEuler sample_B])
   ∧ (extract_from_composite ["work"; "twoComposite.h5"] sample_composites).1
     = Ok ["work"; "twoRigid.mat"]
   ∧ files (extract_from_composite ["work"; "twoComposite.h5"] sample_composites).2
       !! ["work"; "twoRigid.mat"]
     = Some (FTransform (TEuler sample_A)))
  ∧ (extract_from_composite ["work"; "scaledComposite.h5"] sample_composites).1
    = Ok ["work"; "scaledRigid.mat"]
  ∧ files (extract_from_composite ["work"; "scaledComposite.h5"] sample_composites).2
      !! ["work"; "scaledRigid.mat"]
    = Some (FTransform (TSimilarity sample_similarity)).
Proof.
  rewrite (extract_from_composite_run sample_composites ["work"; "twoComposite.h5"]
             [TEuler sample_A; TEuler sample_B] (TEuler sample_A) [TEuler sample_B])
    by reflexivity.
  rewrite (extract_from_composite_run sample_composites ["work"; "scaledComposite.h5"]
             [TSimilarity sample_similarity] (TSimilarity sample_similarity) [])
    by reflexivity.
  repeat split; apply lookup_insert_eq.
Qed.

(** ** Reading a successful run backwards *)

Lemma bind_Ok {A B} (m : M A) (f : A → M B) (w w' : World) (b : B) :
  (m ≫= f) w = (Ok b, w') →
  ∃ a w0, m w = (Ok a, w0) ∧ f a w0 = (Ok b, w').
Proof.
  unfold mbind, M_bind. destruct (m w) as [[a|e] w0]; [eauto | discriminate].
Qed.

Lemma subprocess_run_Ok (program : ExternalProgram) (output : Path) (cmd : list string)
    (env : Env) (w w' : World) (u : unit) :
  subprocess_run program output cmd env w = (Ok u, w') →
  ∃ f, w' = mkWorld (<[output := f]> (files w)) (calls w ++ [cmd]).
Proof.
  unfold subprocess_run. destruct (program cmd env (files w)); [|discriminate].
  intros [= _ <-]. eauto.
Qed.

Lemma extract_from_composite_Ok (composite rigid_mat : Path) (w w' : World) :
  extract_from_composite composite w = (Ok rigid_mat, w') →
  rigid_mat = composite_rigid_path composite
  ∧ ∃ first, w' = set_files <[rigid_mat := FTransform first]> w.
Proof.
  unfold extract_from_composite, mbind, M_bind, ReadTransform, lift, WriteTransform.
  destruct (files w !! composite) as [[t|]|]; try discriminate.
  destruct (FlattenTransform t) as [t'|]; [|discriminate].
  destruct (GetNthTransform 0 t') as [first|]; [|discriminate].
  cbn. intros [= <- <-]. eauto.
Qed.

Lemma mapM_ReadTransform_Ok (paths : list Path) (ts : list Transform) (w w' : World) :
  mapM ReadTransform paths w = (Ok ts, w') →
  w' = w ∧ Forall2 (λ p t, files w !! p = Some (FTransform t)) paths ts.
Proof.
  revert ts. induction paths as [|p paths IH]; intros ts; cbn.
  - intros [= <- <-]. split; [reflexivity | constructor].
  - unfold mbind, M_bind, ReadTransform at 1.
    destruct (files w !! p) as [[t|]|] eqn:Hp; try discriminate.
    destruct (mapM ReadTransform paths w) as [[ts'|] w0] eqn:Hrest; [|discriminate].
    cbn. intros [= <- <-]. destruct (IH ts' eq_refl) as [-> Hall].
    split; [reflexivity | constructor; assumption].
Qed.

Lemma compose_transforms_Ok (paths : list Path) (out : Path) (w w' : World) (u : unit) :
  compose_transforms paths out w = (Ok u, w') →
  ∃ ts composed,
    Forall2 (λ p t, files w !! p = Some (FTransform t)) paths ts
    ∧ compose_loaded ts = Ok composed
    ∧ w' = set_files <[out := FTransform (TEuler composed)]> w.
Proof.
  unfold compose_transforms. intros H.
  apply bind_Ok in H as (ts & w0 & Hread & H).
  apply mapM_ReadTransform_Ok in Hread as [-> Hall].
  apply bind_Ok in H as (composed & w1 & Hc & H).
  unfold lift in Hc. injection Hc as Hc <-.
  unfold WriteTransform in H. injection H as <-. eauto.
Qed.

Lemma clip_to_input_range_Ok (img_path input_path : Path) (w w' : World) (u : unit) :
  clip_to_input_range img_path input_path w = (Ok u, w') →
  ∃ img, w' = set_files <[img_path := FImage img]> w.
Proof.
  unfold clip_to_input_range, mbind, M_bind, Nifti1Image_load, lift, to_filename.
  destruct (files w !! img_path) as [[|img]|]; try discriminate.
  destruct (files w !! input_path) as [[|input]|]; try discriminate.
  destruct (np_min (fdata input)); [|discriminate].
  destruct (np_max (fdata input)); [|discriminate].
  intros [= <-]. eauto.
Qed.

Lemma rename_Ok (src dst : Path) (w w' : World) (u : unit) :
  rename src dst w = (Ok u, w') →
  ∃ f, files w !! src = Some f
       ∧ w' = set_files (λ fs, <[dst := f]> (delete src fs)) w.
Proof.
  unfold rename. destruct (files w !! src) as [f|]; [|discriminate].
  intros [= <-]. eauto.
Qed.

Lemma joinpath_twice_ne (p : Path) (a b c : string) : p // a // b ≠ p // c.
Proof.
  unfold joinpath. rewrite <- app_assoc. intros H.
  apply app_inv_head in H. discriminate H.
Qed.

Lemma joinpath_not_prefix (p : Path) (d x : string) :
  d ≠ x → ¬ (p // d) `prefix_of` (p // x).
Proof.
  unfold joinpath. intros Hne [k Hk]. rewrite <- app_assoc in Hk.
  apply app_inv_head in Hk. injection Hk as Hk _. congruence.
Qed.

(** Nothing that [main] publishes lies in its temporary directory. *)
Lemma published_outside_temp_dir (parsed_args : Namespace) (tail : string) :
  ¬ temp_dir parsed_args
      `prefix_of` (output_dir parsed_args
                   // (moving_stem parsed_args +:+ "_reg" +:+ tail)).
Proof.
  apply joinpath_not_prefix. intros H.
  apply string_app_inv_head in H. discriminate H.
Qed.

Lemma published_transform_mat (parsed_args : Namespace) (nm : string) :
  name_suffix nm = ".mat" →
  published_transform parsed_args (temp_dir parsed_args // nm)
  = output_dir parsed_args // (moving_stem parsed_args +:+ "_reg.mat").
Proof.
  intros H. unfold published_transform, suffix. rewrite name_joinpath, H.
  reflexivity.
Qed.

Lemma composite_rigid_path_output (dir : Path) :
  composite_rigid_path (dir // "outputComposite.h5") = dir // "outputRigid.mat".
Proof.
  unfold composite_rigid_path. rewrite parent_joinpath, name_joinpath.
  reflexivity.
Qed.

(** *** What a run leaves alone *)

Lemma same_outside_refl (dir : Path) (w : World) : same_outside dir w w.
Proof. intros p _. reflexivity. Qed.

Lemma same_outside_trans (dir : Path) (w1 w2 w3 : World) :
  same_outside dir w1 w2 → same_outside dir w2 w3 → same_outside dir w1 w3.
Proof. intros H12 H23 p Hp. rewrite H23, H12 by exact Hp. reflexivity. Qed.

Lemma same_outside_insert (dir : Path) (part : string) (f : File) (w : World)
    (log : list (list string)) :
  same_outside dir w (mkWorld (<[dir // part := f]> (files w)) log).
Proof.
  intros p Hp. cbn. apply lookup_insert_ne. intros <-. apply Hp.
  exists [part]. reflexivity.
Qed.

Lemma subprocess_run_frame (program : ExternalProgram) (dir : Path) (part : string)
    (cmd : list string) (env : Env) (w w' : World) (u : unit) :
  subprocess_run program (dir // part) cmd env w = (Ok u, w') →
  same_outside dir w w'.
Proof.
  intros H. apply subprocess_run_Ok in H as [f ->]. apply same_outside_insert.
Qed.

Lemma check_exists_Ok (arg : string * option Path) (w w' : World) (u : unit) :
  check_exists arg w = (Ok u, w') → w' = w.
Proof.
  unfold check_exists. destruct arg.2 as [path|]; [|intros [= _ <-]; reflexivity].
  intros H. apply bind_Ok in H as (found & w0 & Hfound & H).
  unfold path_exists in Hfound. injection Hfound as _ <-.
  destruct found; [|discriminate]. injection H as _ <-. reflexivity.
Qed.

Lemma mapM_check_exists_Ok (l : list (string * option Path)) (w w' : World)
    (us : list unit) :
  mapM check_exists l w = (Ok us, w') → w' = w.
Proof.
  revert us w'. induction l as [|arg l IH]; intros us w'; cbn.
  - intros [= _ <-]. reflexivity.
  - intros H. apply bind_Ok in H as (u & w0 & Hu & H).
    apply check_exists_Ok in Hu as ->.
    apply bind_Ok in H as (us' & w1 & Hus & H).
    apply IH in Hus as ->. injection H as _ <-. reflexivity.
Qed.

Lemma extract_rigid_transform_Ok (transform target : Path) (w w' : World)
    (r : Path * Path) :
  extract_rigid_transform transform target w = (Ok r, w') →
  r = (invscale_path transform, rigid_path transform)
  ∧ ∃ f g, w' = set_files (λ fs, <[rigid_path transform := g]>
                                   (<[invscale_path transform := f]> fs)) w.
Proof.
  unfold extract_rigid_transform, mbind, M_bind, Nifti1Image_load, ReadTransform,
    lift, WriteTransform.
  destruct (files w !! target) as [[|img]|]; try discriminate.
  destruct (files w !! transform) as [[tfm|]|]; try discriminate.
  destruct (GetInverse tfm) as [inv|]; [|discriminate].
  destruct (GetScale inv) as [k|]; [|discriminate].
  destruct (getitem (shape img) 1) as [d1|]; [|discriminate].
  destruct (getitem (shape img) 2) as [d2|]; [|discriminate].
  destruct (getitem (zooms img) 0) as [z0|]; [|discriminate].
  destruct (SetScale 1 tfm) as [tfm1|]; [|discriminate].
  destruct (GetMatrix tfm1) as [m|]; [|discriminate].
  destruct (GetTranslation tfm1) as [t|]; [|discriminate].
  destruct (GetCenter tfm1) as [c|]; [|discriminate].
  intros [= <- <-]. split; [reflexivity|]. eauto.
Qed.

Lemma initial_registration_frame (ants : Ants) (parsed_args : Namespace) (env : Env)
    (w w' : World) (r : Path * Path * Path * option Path) :
  initial_registration ants parsed_args env w = (Ok r, w') →
  same_outside (temp_dir parsed_args) w w'.
Proof.
  unfold initial_registration. cbv zeta.
  destruct (scale_fixed parsed_args); intros H.
  - apply bind_Ok in H as (? & w1 & H1 & H). apply subprocess_run_frame in H1.
    apply bind_Ok in H as ([inv_scale rigid_transform] & w2 & H2 & H).
    apply extract_rigid_transform_Ok in H2 as [_ (f & g & ->)].
    apply bind_Ok in H as (? & w3 & H3 & H). apply subprocess_run_frame in H3.
    apply bind_Ok in H as (? & w4 & H4 & H). apply subprocess_run_frame in H4.
    apply bind_Ok in H as (regmask & w5 & H5 & H). injection H as _ <-.
    assert (same_outside (temp_dir parsed_args) w4 w5) as H45.
    { destruct (fixed_regmask parsed_args).
      - apply bind_Ok in H5 as (? & w6 & H6 & H5). injection H5 as _ <-.
        apply subprocess_run_frame in H6. exact H6.
      - injection H5 as _ <-. apply same_outside_refl. }
    eapply same_outside_trans; [exact H1|].
    eapply same_outside_trans; [|eapply same_outside_trans;
      [exact H3 | eapply same_outside_trans; [exact H4 | exact H45]]].
    unfold invscale_path, rigid_path. rewrite parent_joinpath.
    intros p Hp. cbn. rewrite !lookup_insert_ne; [reflexivity| |];
      intros <-; apply Hp; eexists [_]; reflexivity.
  - apply bind_Ok in H as (? & w1 & H1 & H). injection H as _ <-.
    apply subprocess_run_frame in H1. exact H1.
Qed.

Lemma register_frame (ants : Ants) (parsed_args : Namespace) (env : Env)
    (w w1 : World) (rigid_mat : Path) :
  register ants parsed_args env w = (Ok rigid_mat, w1) →
  same_outside (temp_dir parsed_args) w w1.
Proof.
  unfold register. cbv zeta. intros H.
  apply bind_Ok in H as (? & w_a & Ha & H). apply mapM_check_exists_Ok in Ha as ->.
  apply bind_Ok in H as (? & w_b & Hb & H).
  assert (w_b = w) as ->.
  { destruct (xorb _ _); [discriminate|]. injection Hb as _ <-. reflexivity. }
  apply bind_Ok in H as (? & w_c & Hc & H). apply subprocess_run_frame in Hc.
  apply bind_Ok in H as (? & w_d & Hd & H). apply subprocess_run_frame in Hd.
  apply bind_Ok in H as ([[[init fixed] bm] rm] & w_e & He & H).
  apply initial_registration_frame in He.
  apply bind_Ok in H as (? & w_f & Hf & H). apply subprocess_run_frame in Hf.
  apply extract_from_composite_Ok in H as [-> [first ->]].
  rewrite composite_rigid_path_output.
  repeat (eapply same_outside_trans; [eassumption|]).
  apply same_outside_insert.
Qed.

(** A successful [register]: it returns [temp_dir / "outputRigid.mat"],
    that file holds a transform, and the prior transform and the prior
    target are both given or both absent. *)
Lemma register_Ok (ants : Ants) (parsed_args : Namespace) (env : Env)
    (w w1 : World) (rigid_mat : Path) :
  register ants parsed_args env w = (Ok rigid_mat, w1) →
  rigid_mat = temp_dir parsed_args // "outputRigid.mat"
  ∧ (∃ refined, files w1 !! rigid_mat = Some (FTransform refined))
  ∧ (fixed_transform parsed_args = None ↔ fixed_target parsed_args = None).
Proof.
  unfold register. cbv zeta. intros H.
  apply bind_Ok in H as (? & w_a & _ & H).
  apply bind_Ok in H as (? & w_b & Hxor & H).
  apply bind_Ok in H as (? & w_c & _ & H).
  apply bind_Ok in H as (? & w_d & _ & H).
  apply bind_Ok in H as ([[[init fixed] bm] rm] & w_e & _ & H).
  apply bind_Ok in H as (? & w_f & _ & H).
  apply extract_from_composite_Ok in H as [-> [first ->]].
  rewrite composite_rigid_path_output. split; [reflexivity|]. split.
  - exists first. cbn. apply lookup_insert_eq.
  - destruct (fixed_transform parsed_args), (fixed_target parsed_args);
      cbn in Hxor; try discriminate Hxor; split; congruence.
Qed.

(** What is left of a file of the temporary directory at the time [main]
    publishes it: the resampled image was written and moved in between. *)
Lemma lookup_before_publish (parsed_args : Namespace) (fs : gmap Path File)
    (nm : string) (f g h : File) :
  nm ≠ "output.nii.gz" →
  <[published_image parsed_args := h]>
    (delete (temp_dir parsed_args // "output.nii.gz")
       (<[temp_dir parsed_args // "output.nii.gz" := g]>
          (<[temp_dir parsed_args // "output.nii.gz" := f]> fs)))
    !! (temp_dir parsed_args // nm)
  = fs !! (temp_dir parsed_args // nm).
Proof.
  intros Hnm.
  assert (temp_dir parsed_args // "output.nii.gz" ≠ temp_dir parsed_args // nm)
    as Hout by (intros E; apply joinpath_inj in E; congruence).
  rewrite lookup_insert_ne
    by (unfold published_image, temp_dir; apply not_eq_sym, joinpath_twice_ne).
  rewrite lookup_delete_ne by exact Hout.
  rewrite !lookup_insert_ne by exact Hout. reflexivity.
Qed.

(** ** The orchestrator *)

(** C8.  In every successful run, let [refined] be the transform that
    [register] leaves in [temp_dir / "outputRigid.mat"]; up to there the
    run has written in its temporary directory only.  With a prior
    transform and a prior target, the published transform is what
    [compose_transforms] makes of [refined; prior], and the last command
    resamples onto the prior target; with neither, the published
    transform is [refined] and the last command resamples onto the fixed
    image.  No run succeeds with only one of the two. *)
Theorem main_final_transform (ants : Ants) (parsed_args : Namespace) (w w' : World) :
  main ants parsed_args w = (Ok (), w') →
  ∃ (w1 : World) (refined : Transform),
    register ants parsed_args (ants_env parsed_args) w
    = (Ok (temp_dir parsed_args // "outputRigid.mat"), w1)
    ∧ files w1 !! (temp_dir parsed_args // "outputRigid.mat")
      = Some (FTransform refined)
    ∧ same_outside (temp_dir parsed_args) w w1
    ∧ match fixed_transform parsed_args, fixed_target parsed_args with
      | Some prior_path, Some prior_target =>
          ∃ prior composed,
            files w1 !! prior_path = Some (FTransform prior)
            ∧ compose_loaded [refined; prior] = Ok composed
            ∧ files w' !! (output_dir parsed_args
                           // (moving_stem parsed_args +:+ "_reg.mat"))
              = Some (FTransform (TEuler composed))
            ∧ calls w'
              = (calls w1
                 ++ [transform_cmd (temp_dir parsed_args) (moving_image parsed_args)
                       prior_target (temp_dir parsed_args // "combined.mat")])%list
      | None, None =>
          files w' !! (output_dir parsed_args
                       // (moving_stem parsed_args +:+ "_reg.mat"))
          = Some (FTransform refined)
          ∧ calls w'
            = (calls w1
               ++ [transform_cmd (temp_dir parsed_args) (moving_image parsed_args)
                     (fixed_image parsed_args)
                     (temp_dir parsed_args // "outputRigid.mat")])%list
      | _, _ => False
      end.
Proof.
  unfold main. cbv zeta. intros H.
  apply bind_Ok in H as (rigid_mat & w1 & Hreg & H).
  destruct (register_Ok _ _ _ _ _ _ Hreg) as (-> & [refined Href] & Hboth).
  exists w1, refined. split; [exact Hreg|]. split; [exact Href|].
  split; [exact (register_frame _ _ _ _ _ _ Hreg)|].
  apply bind_Ok in H as ([transform_to_use target_to_use] & w2 & Hcomb & H).
  apply bind_Ok in H as (target & w3 & Htarget & H).
  apply bind_Ok in H as (? & w4 & Hrun & H).
  apply bind_Ok in H as (? & w5 & Hclip & H).
  apply bind_Ok in H as (? & w6 & Hmove & H).
  apply bind_Ok in H as (? & w7 & Hpublish & H).
  unfold rmtree in H. injection H as <-.
  apply subprocess_run_Ok in Hrun as [f ->].
  apply clip_to_input_range_Ok in Hclip as [img ->].
  apply rename_Ok in Hmove as (h & _ & ->).
  apply rename_Ok in Hpublish as (g & Hg & ->).
  unfold combine_transforms in Hcomb. cbv zeta in Hcomb.
  destruct (fixed_transform parsed_args) as [prior_path|];
    destruct (fixed_target parsed_args) as [prior_target|];
    try (exfalso; destruct Hboth as [Hb1 Hb2];
         first [discriminate (Hb1 eq_refl) | discriminate (Hb2 eq_refl)]).
  - apply bind_Ok in Hcomb as (? & w2' & Hcompose & Hret).
    injection Hret as <- <- <-. injection Htarget as <- <-.
    apply compose_transforms_Ok in Hcompose as (ts & composed & Hread & Hc & ->).
    inversion Hread as [|? t1 ? ts1 Ht1 Hread1]; subst.
    inversion Hread1 as [|? t2 ? ts2 Ht2 Hread2]; subst.
    inversion Hread2; subst.
    rewrite Href in Ht1. injection Ht1 as <-.
    exists t2, composed. split; [exact Ht2|]. split; [exact Hc|].
    cbn in Hg. rewrite lookup_before_publish in Hg by discriminate.
    rewrite lookup_insert_eq in Hg. injection Hg as <-.
    rewrite published_transform_mat by reflexivity. split; [|reflexivity].
    cbn. apply map_lookup_filter_Some. split; [apply lookup_insert_eq|].
    apply (published_outside_temp_dir parsed_args ".mat").
  - injection Hcomb as <- <- <-. injection Htarget as <- <-.
    cbn in Hg. rewrite lookup_before_publish in Hg by discriminate.
    rewrite Href in Hg. injection Hg as <-.
    rewrite published_transform_mat by reflexivity. split; [|reflexivity].
    cbn. apply map_lookup_filter_Some. split; [apply lookup_insert_eq|].
    apply (published_outside_temp_dir parsed_args ".mat").
Qed.

Lemma main_final_transform_witness :
  main mock_ants sample_request sample_start = (Ok (), sample_finish)
  ∧ ∃ (w1 : World) (refined : Transform),
      register mock_ants sample_request (ants_env sample_request) sample_start
      = (Ok ["out"; "fgatir__mprage"; "outputRigid.mat"], w1)
      ∧ files w1 !! ["out"; "fgatir__mprage"; "outputRigid.mat"]
        = Some (FTransform refined)
      ∧ same_outside ["out"; "fgatir__mprage"] sample_start w1
      ∧ ∃ prior composed,
          files w1 !! ["atlas"; "mprage_reg.mat"] = Some (FTransform prior)
          ∧ compose_loaded [refined; prior] = Ok composed
          ∧ files sample_finish !! ["out"; "fgatir_reg.mat"]
            = Some (FTransform (TEuler composed))
          ∧ calls sample_finish
            = (calls w1
               ++ [transform_cmd ["out"; "fgatir__mprage"] ["data"; "fgatir.nii.gz"]
                     ["atlas"; "mprage_reg.nii.gz"]
                     ["out"; "fgatir__mprage"; "combined.mat"]])%list.
Proof.
  assert (main mock_ants sample_request sample_start = (Ok (), sample_finish)) as Hrun
    by (vm_compute; reflexivity).
  split; [exact Hrun|].
  exact (main_final_transform mock_ants sample_request sample_start sample_finish Hrun).
Defined.

(** The run against the test doubles, read off: the published transform
    is the quarter turn composed with the half turn of the atlas
    transform, and the image is resampled onto the atlas-space target. *)
Example main_sample_run :
  (∃ composed,
     files sample_finish !! ["out"; "fgatir_reg.mat"]
     = Some (FTransform (TEuler composed))
     ∧ composed = Euler3D (np.dot (e_matrix sample_A) (e_matrix sample_C))
                          (Vec3 (q 4) (q 9) (q 13)) np.zeros)
  ∧ last (calls sample_finish)
    = Some [ "antsApplyTransforms"; "--dimensionality"; "3";
             "--input"; "/data/fgatir.nii.gz";
             "--reference-image"; "/atlas/mprage_reg.nii.gz";
             "--output"; "/out/fgatir__mprage/output.nii.gz";
             "--interpolation"; "BSpline[3]"; "--output-data-type"; "float";
             "--transform"; "/out/fgatir__mprage/combined.mat"; "--verbose" ].
Proof.
  split; [|vm_compute; reflexivity].
  eexists. split; [vm_compute; reflexivity|].
  apply (bool_decide_unpack _). vm_compute. exact I.
Qed.

(** ** The command line of the two-stage registration *)

Lemma str_starts_with_slash (p : Path) : ∃ rest, str p = String "/" rest.
Proof. destruct p as [|part p]; cbn; eauto. Qed.

Lemma str_is_not_a_masks_pair (p : Path) : str p ≠ masks_format (str p).
Proof.
  destruct (str_starts_with_slash p) as [rest ->]. unfold masks_format. cbn.
  discriminate.
Qed.

(** C9, on the code.  With a registration mask, the stage-one [--masks]
    argument of the command is the bare path of the mask and not the pair
    ["[mask,None]"]; without one it is ["[None,None]"]; the stage-two
    argument is the pair of the brain mask. *)
Theorem reg_cmd_masks (temp_dir init_transform_to_use fixed_to_use moving_image
    regmask fixed_brainmask_to_use : Path) :
  let with_mask := reg_cmd temp_dir init_transform_to_use fixed_to_use moving_image
                     (Some regmask) fixed_brainmask_to_use in
  let without_mask := reg_cmd temp_dir init_transform_to_use fixed_to_use moving_image
                        None fixed_brainmask_to_use in
  with_mask !! 27%nat = Some "--masks"
  ∧ with_mask !! 28%nat = Some (str regmask)
  ∧ with_mask !! 28%nat ≠ Some (masks_format (str regmask))
  ∧ without_mask !! 28%nat = Some "[None,None]"
  ∧ with_mask !! 39%nat = Some "--masks"
  ∧ with_mask !! 40%nat = Some (masks_format (str fixed_brainmask_to_use)).
Proof.
  cbv zeta. repeat split; try reflexivity.
  cbn. intros [= H]. exact (str_is_not_a_masks_pair regmask H).
Qed.

(** The same on the run against the test doubles: the registration mask
    [/data/regmask.nii.gz] reaches [antsRegistration] as a bare path. *)
Example main_sample_stage_one_mask :
  ∃ cmd, calls sample_finish !! 3%nat = Some cmd
         ∧ cmd !! 0%nat = Some "antsRegistration"
         ∧ cmd !! 27%nat = Some "--masks"
         ∧ cmd !! 28%nat = Some "/data/regmask.nii.gz"
         ∧ cmd !! 40%nat = Some "[/data/brainmask.nii.gz,None]".
Proof. eexists. repeat split; vm_compute; reflexivity. Qed.

(** ** Clipping *)

Lemma foldl_min_le (x : Qc) (a : list Qc) :
  let m := foldl (λ m y, if decide (y < m)%Qc then y else m) x a in
  (m ≤ x)%Qc ∧ Forall (λ y, m ≤ y)%Qc a ∧ (m = x ∨ m ∈ a).
Proof.
  cbv zeta. revert x. induction a as [|y a IH]; intros x; cbn.
  - split; [apply Qcle_refl|]. split; [constructor | left; reflexivity].
  - destruct (decide (y < x)%Qc) as [Hlt|Hge].
    + destruct (IH y) as (Hy & Hall & Hin). split; [|split].
      * eapply Qcle_trans; [exact Hy | apply Qclt_le_weak, Hlt].
      * constructor; assumption.
      * right. destruct Hin as [->|Hin]; [left | right; exact Hin].
    + destruct (IH x) as (Hx & Hall & Hin). split; [exact Hx|]. split.
      * constructor; [|exact Hall].
        eapply Qcle_trans; [exact Hx | apply Qcnot_lt_le, Hge].
      * destruct Hin as [->|Hin]; [left; reflexivity | right; right; exact Hin].
Qed.

Lemma foldl_max_ge (x : Qc) (a : list Qc) :
  let m := foldl (λ m y, if decide (m < y)%Qc then y else m) x a in
  (x ≤ m)%Qc ∧ Forall (λ y, y ≤ m)%Qc a ∧ (m = x ∨ m ∈ a).
Proof.
  cbv zeta. revert x. induction a as [|y a IH]; intros x; cbn.
  - split; [apply Qcle_refl|]. split; [constructor | left; reflexivity].
  - destruct (decide (x < y)%Qc) as [Hlt|Hge].
    + destruct (IH y) as (Hy & Hall & Hin). split; [|split].
      * eapply Qcle_trans; [apply Qclt_le_weak, Hlt | exact Hy].
      * constructor; assumption.
      * right. destruct Hin as [->|Hin]; [left | right; exact Hin].
    + destruct (IH x) as (Hx & Hall & Hin). split; [exact Hx|]. split.
      * constructor; [|exact Hall].
        eapply Qcle_trans; [apply Qcnot_lt_le, Hge | exact Hx].
      * destruct Hin as [->|Hin]; [left; reflexivity | right; right; exact Hin].
Qed.

(** The minimum of an array is one of its elements and a lower bound of
    all of them; the maximum likewise. *)
Lemma np_min_spec (a : list Qc) (lo : Qc) :
  np_min a = Ok lo → lo ∈ a ∧ Forall (λ y, lo ≤ y)%Qc a.
Proof.
  destruct a as [|x a]; [discriminate|]. cbn. intros [= <-].
  destruct (foldl_min_le x a) as (Hx & Hall & Hin). split.
  - destruct Hin as [->|Hin]; [left | right; exact Hin].
  - constructor; assumption.
Qed.

Lemma np_max_spec (a : list Qc) (hi : Qc) :
  np_max a = Ok hi → hi ∈ a ∧ Forall (λ y, y ≤ hi)%Qc a.
Proof.
  destruct a as [|x a]; [discriminate|]. cbn. intros [= <-].
  destruct (foldl_max_ge x a) as (Hx & Hall & Hin). split.
  - destruct Hin as [->|Hin]; [left | right; exact Hin].
  - constructor; assumption.
Qed.

Lemma np_min_le_max (a : list Qc) (lo hi : Qc) :
  np_min a = Ok lo → np_max a = Ok hi → (lo ≤ hi)%Qc.
Proof.
  intros Hlo Hhi. apply np_min_spec in Hlo as [Hin _].
  apply np_max_spec in Hhi as [_ Hall].
  rewrite Forall_forall in Hall. apply Hall, Hin.
Qed.








(** X3.  A second volume without voxels has no minimum: the call raises
    [ValueError] and writes nothing. *)
Theorem clip_to_input_range_empty_reference (w : World) (img_path input_path : Path)
    (img input : Image) :
  files w !! img_path = Some (FImage img) →
  files w !! input_path = Some (FImage input) →
  fdata input = [] →
  ∃ msg, clip_to_input_range img_path input_path w = (Raise (ValueError msg), w).
Proof.
  intros Himg Hinput Hdata. eexists.
  unfold clip_to_input_range, mbind, M_bind, Nifti1Image_load, lift.
  rewrite Himg, Hinput, Hdata. reflexivity.
Qed.

Lemma clip_to_input_range_empty_reference_witness :
  (files sample_volumes !! ["data"; "image.nii.gz"] = Some (FImage sample_moving)
   ∧ files sample_volumes !! ["data"; "empty.nii.gz"] = Some (FImage sample_empty)
   ∧ fdata sample_empty = [])
  ∧ ∃ msg, clip_to_input_range ["data"; "image.nii.gz"] ["data"; "empty.nii.gz"]
             sample_volumes
           = (Raise (ValueError msg), sample_volumes).
Proof.
  split; [repeat split; reflexivity|].
  exact (clip_to_input_range_empty_reference sample_volumes ["data"; "image.nii.gz"]
           ["data"; "empty.nii.gz"] sample_moving sample_empty
           eq_refl eq_refl eq_refl).
Defined.

(** ** More on the decomposition *)

Lemma string_length_append (a b : string) :
  String.length (a +:+ b) = (String.length a + String.length b)%nat.
Proof.
  induction a as [|c a IH]; [reflexivity|].
  change (S (String.length (a +:+ b)) = S (String.length a + String.length b)).
  f_equal. exact IH.
Qed.

Lemma take_drop (i : nat) (s : string) : py.take i s +:+ py.drop i s = s.
Proof.
  revert s. induction i as [|i IH]; intros [|c s]; try reflexivity.
  change (String c (py.take i s +:+ py.drop i s) = String c s).
  f_equal. apply IH.
Qed.

Lemma string_append_empty_r (s : string) : s +:+ EmptyString = s.
Proof.
  induction s as [|c s IH]; [reflexivity|].
  change (String c (s +:+ EmptyString) = String c s). f_equal. exact IH.
Qed.

(** [p.name == p.stem + p.suffix] *)
Lemma name_stem_suffix (nm : string) : name_stem nm +:+ name_suffix nm = nm.
Proof.
  unfold name_stem, name_suffix. destruct (py.rfind "." nm) as [i|].
  - destruct (bool_decide (0 < i)%nat && bool_decide (i < String.length nm - 1)%nat).
    + apply take_drop.
    + apply string_append_empty_r.
  - apply string_append_empty_r.
Qed.

Lemma joinpath_parent_name (p : Path) : p ≠ [] → parent p // name p = p.
Proof.
  intros Hp. unfold joinpath, parent, name. symmetry.
  apply app_removelast_last, Hp.
Qed.

(** A file written beside [p] under the name stem + tag + suffix, with a
    tag that is not empty, is never [p] itself. *)
Lemma tagged_path_ne (p : Path) (tag : string) :
  p ≠ [] → tag ≠ EmptyString →
  parent p // (stem p +:+ tag +:+ suffix p) ≠ p.
Proof.
  intros Hp Htag H. rewrite <- (joinpath_parent_name p Hp) in H at 4.
  apply joinpath_inj in H. unfold stem, suffix in H.
  rewrite <- (name_stem_suffix (name p)) in H at 3.
  apply string_app_inv_head in H.
  apply (f_equal String.length) in H. rewrite string_length_append in H.
  destruct tag; [congruence | cbn in H; lia].
Qed.

Lemma extract_rigid_transform_Raise (transform target : Path) (w w' : World)
    (e : exception) :
  extract_rigid_transform transform target w = (Raise e, w') → w' = w.
Proof.
  unfold extract_rigid_transform, mbind, M_bind, Nifti1Image_load, ReadTransform,
    lift, WriteTransform.
  destruct (files w !! target) as [[|img]|]; try (intros [= _ <-]; reflexivity).
  destruct (files w !! transform) as [[tfm|]|]; try (intros [= _ <-]; reflexivity).
  destruct tfm as [r|s|subs]; cbn.
  - intros [= _ <-]; reflexivity.
  - destruct (s_GetInverse s) as [inverse|]; cbn; [|intros [= _ <-]; reflexivity].
    destruct (getitem (shape img) 1); [|intros [= _ <-]; reflexivity].
    destruct (getitem (shape img) 2); [|intros [= _ <-]; reflexivity].
    destruct (getitem (zooms img) 0); [|intros [= _ <-]; reflexivity].
    discriminate.
  - match goal with
    | |- context [mbind _ ?r] => destruct r; cbn
    end; intros [= _ <-]; reflexivity.
Qed.

Section DecompositionMore.

Context (w : World) (transform target : Path).
Context (s : Similarity3DTransform) (img : Image).
Context (dim0 dim1 dim2 : Z) (spacing0 : Qc).
Hypothesis target_holds : files w !! target = Some (FImage img).
Hypothesis transform_holds :
  files w !! transform = Some (FTransform (TSimilarity s)).
Hypothesis image_shape : shape img = [dim0; dim1; dim2].
Hypothesis image_spacing : zooms img !! 0%nat = Some spacing0.
Hypothesis scale_invertible : s_scale s ≠ 0.

(** X4.  The two parts fit the input: the input transform is the rigid
    part applied after a scaling by the input's scale about the input's
    center, and the inverse-scale part undoes a scaling by the input's
    scale about its own center. *)
Theorem decomposition_factors :
  ∃ inv_scale rigid,
    decomposes_into w transform target inv_scale rigid
    ∧ (∀ x, s_TransformPoint s x
            = e_TransformPoint rigid
                (np.add (s_center s)
                        (np.scalev (s_scale s) (np.sub x (s_center s)))))
    ∧ (∀ x, s_TransformPoint inv_scale
              (np.add (s_center inv_scale)
                      (np.scalev (s_scale s) (np.sub x (s_center inv_scale))))
            = x).
Proof.
  do 2 eexists.
  split; [exact (extract_rigid_transform_decomposes w transform target s img
                   dim0 dim1 dim2 spacing0 target_holds transform_holds
                   image_shape image_spacing scale_invertible)|].
  split.
  - intros x. destruct s as [r t c k].
    unfold s_TransformPoint, e_TransformPoint, s_GetMatrix. cbn. vec_crush.
  - intros x. unfold s_TransformPoint, s_GetMatrix. cbn.
    set (c := Vec3 0 (Qc_of_Z (dim1 - dim2) * spacing0)
                     (Qc_of_Z (dim1 - dim2) * spacing0)).
    replace (np.dotv (np.scale (/ s_scale s) np.eye)
               (np.sub (np.add c (np.scalev (s_scale s) (np.sub x c))) c))
      with (np.scalev (/ s_scale s * s_scale s) (np.sub x c))
      by (destruct x, c; unfold np.sub, np.add, np.dotv, np.scale, np.scalev,
            np.eye; cbn; f_equal; ring).
    rewrite Qcmult_inv_l by exact scale_invertible.
    destruct x, c. unfold np.sub, np.add, np.scalev, np.zeros. cbn. f_equal; ring.
Qed.

(** X5.  A successful call leaves its input as it was: the two files it
    writes are not the transform file, which keeps the similarity
    transform with its scale. *)
Theorem extract_rigid_transform_keeps_input :
  transform ≠ [] →
  invscale_path transform ≠ transform
  ∧ rigid_path transform ≠ transform
  ∧ invscale_path transform ≠ rigid_path transform
  ∧ ∃ w', extract_rigid_transform transform target w
          = (Ok (invscale_path transform, rigid_path transform), w')
          ∧ files w' !! transform = Some (FTransform (TSimilarity s)).
Proof.
  intros Hpath.
  assert (invscale_path transform ≠ transform) as Hinv
    by (apply tagged_path_ne; [exact Hpath | discriminate]).
  assert (rigid_path transform ≠ transform) as Hrig
    by (apply tagged_path_ne; [exact Hpath | discriminate]).
  split; [exact Hinv|]. split; [exact Hrig|].
  split; [apply invscale_path_ne_rigid_path|].
  eexists. split.
  - exact (extract_rigid_transform_run w transform target s img
             dim0 dim1 dim2 spacing0 target_holds transform_holds
             image_shape image_spacing scale_invertible).
  - cbn. rewrite !lookup_insert_ne by assumption. exact transform_holds.
Qed.

End DecompositionMore.

Lemma decomposition_factors_witness :
  (files sample_decompose !! ["data"; "fixed.nii.gz"] = Some (FImage sample_fixed)
   ∧ files sample_decompose !! ["work"; "ai.mat"]
     = Some (FTransform (TSimilarity sample_similarity))
   ∧ shape sample_fixed = [193; 229; 193]%Z
   ∧ zooms sample_fixed !! 0%nat = Some (Q2Qc (4 # 5))
   ∧ s_scale sample_similarity ≠ 0)
  ∧ ∃ inv_scale rigid,
      decomposes_into sample_decompose ["work"; "ai.mat"] ["data"; "fixed.nii.gz"]
        inv_scale rigid
      ∧ (∀ x, s_TransformPoint sample_similarity x
              = e_TransformPoint rigid
                  (np.add (s_center sample_similarity)
                          (np.scalev (s_scale sample_similarity)
                                     (np.sub x (s_center sample_similarity)))))
      ∧ (∀ x, s_TransformPoint inv_scale
                (np.add (s_center inv_scale)
                        (np.scalev (s_scale sample_similarity)
                                   (np.sub x (s_center inv_scale))))
              = x).
Proof.
  split.
  - repeat split; try reflexivity. exact sample_scale_nonzero.
  - exact (decomposition_factors sample_decompose ["work"; "ai.mat"]
             ["data"; "fixed.nii.gz"] sample_similarity sample_fixed
             193 229 193 (Q2Qc (4 # 5))
             eq_refl eq_refl eq_refl eq_refl sample_scale_nonzero).
Defined.

Lemma extract_rigid_transform_keeps_input_witness :
  (files sample_decompose !! ["data"; "fixed.nii.gz"] = Some (FImage sample_fixed)
   ∧ files sample_decompose !! ["work"; "ai.mat"]
     = Some (FTransform (TSimilarity sample_similarity))
   ∧ shape sample_fixed = [193; 229; 193]%Z
   ∧ zooms sample_fixed !! 0%nat = Some (Q2Qc (4 # 5))
   ∧ s_scale sample_similarity ≠ 0
   ∧ ["work"; "ai.mat"] ≠ [])
  ∧ invscale_path ["work"; "ai.mat"] ≠ ["work"; "ai.mat"]
  ∧ rigid_path ["work"; "ai.mat"] ≠ ["work"; "ai.mat"]
  ∧ invscale_path ["work"; "ai.mat"] ≠ rigid_path ["work"; "ai.mat"]
  ∧ ∃ w', extract_rigid_transform ["work"; "ai.mat"] ["data"; "fixed.nii.gz"]
            sample_decompose
          = (Ok (invscale_path ["work"; "ai.mat"], rigid_path ["work"; "ai.mat"]), w')
          ∧ files w' !! ["work"; "ai.mat"]
            = Some (FTransform (TSimilarity sample_similarity)).
Proof.
  assert (["work"; "ai.mat"] ≠ ([] : Path)) as Hpath by discriminate.
  split.
  - repeat split; try reflexivity; [exact sample_scale_nonzero | exact Hpath].
  - exact (extract_rigid_transform_keeps_input sample_decompose ["work"; "ai.mat"]
             ["data"; "fixed.nii.gz"] sample_similarity sample_fixed
             193 229 193 (Q2Qc (4 # 5))
             eq_refl eq_refl eq_refl eq_refl sample_scale_nonzero Hpath).
Defined.

(** X6.  [extract_rigid_transform] succeeds exactly on a fixed image with
    at least three axes and a similarity transform whose scale is not
    zero; on anything else it raises before it has written a file. *)
Theorem extract_rigid_transform_succeeds_iff (w : World) (transform target : Path) :
  ((∃ r w', extract_rigid_transform transform target w = (Ok r, w'))
   ↔ ∃ img s dim1 dim2 spacing0,
       files w !! target = Some (FImage img)
       ∧ files w !! transform = Some (FTransform (TSimilarity s))
       ∧ shape img !! 1%nat = Some dim1
       ∧ shape img !! 2%nat = Some dim2
       ∧ zooms img !! 0%nat = Some spacing0
       ∧ s_scale s ≠ 0)
  ∧ ∀ e w', extract_rigid_transform transform target w = (Raise e, w') → w' = w.
Proof.
  split; [|intros e w'; apply extract_rigid_transform_Raise].
  unfold extract_rigid_transform, mbind, M_bind, Nifti1Image_load, ReadTransform,
    lift, getitem.
  split.
  - intros (r & w' & H).
    destruct (files w !! target) as [[|img]|]; try discriminate.
    destruct (files w !! transform) as [[[|s|]|]|]; try discriminate.
    + cbn in H. unfold s_GetInverse in H.
      destruct (decide (s_scale s = 0)) as [|Hk]; [discriminate|]. cbn in H.
      destruct (shape img !! 1%nat) as [d1|] eqn:Hd1; [|discriminate].
      destruct (shape img !! 2%nat) as [d2|] eqn:Hd2; [|discriminate].
      destruct (zooms img !! 0%nat) as [z0|] eqn:Hz; [|discriminate].
      exists img, s, d1, d2, z0. repeat (split; [reflexivity || assumption|]).
      exact Hk.
    + cbn in H.
      match type of H with
      | context [mbind _ ?r] => destruct r; discriminate
      end.
  - intros (img & s & d1 & d2 & z0 & -> & -> & Hd1 & Hd2 & Hz & Hk).
    cbn. unfold s_GetInverse.
    destruct (decide (s_scale s = 0)) as [|_]; [contradiction|].
    cbn. rewrite Hd1, Hd2, Hz. cbn. eauto.
Qed.

(** X7.  A similarity transform of scale zero has no inverse: the call
    raises [RuntimeError] and writes nothing. *)
Theorem extract_rigid_transform_singular (w : World) (transform target : Path)
    (s : Similarity3DTransform) (img : Image) :
  files w !! target = Some (FImage img) →
  files w !! transform = Some (FTransform (TSimilarity s)) →
  s_scale s = 0 →
  extract_rigid_transform transform target w = (Raise RuntimeError, w).
Proof.
  intros Himg Htfm Hk.
  unfold extract_rigid_transform, mbind, M_bind, Nifti1Image_load, ReadTransform,
    lift.
  rewrite Himg, Htfm. cbn. unfold s_GetInverse.
  destruct (decide (s_scale s = 0)); [reflexivity | contradiction].
Qed.

Lemma extract_rigid_transform_singular_witness :
  (files sample_rejected !! ["data"; "fixed.nii.gz"] = Some (FImage sample_fixed)
   ∧ files sample_rejected !! ["work"; "singular.mat"]
     = Some (FTransform (TSimilarity sample_singular))
   ∧ s_scale sample_singular = 0)
  ∧ extract_rigid_transform ["work"; "singular.mat"] ["data"; "fixed.nii.gz"]
      sample_rejected
    = (Raise RuntimeError, sample_rejected).
Proof.
  split; [repeat split; reflexivity|].
  exact (extract_rigid_transform_singular sample_rejected ["work"; "singular.mat"]
           ["data"; "fixed.nii.gz"] sample_singular sample_fixed
           eq_refl eq_refl eq_refl).
Defined.

(** X8.  A rigid transform has no scale to read: given one,
    [extract_rigid_transform] raises [AttributeError] and writes
    nothing. *)
Theorem extract_rigid_transform_rigid_input (w : World) (transform target : Path)
    (rigid : Euler3DTransform) (img : Image) :
  files w !! target = Some (FImage img) →
  files w !! transform = Some (FTransform (TEuler rigid)) →
  extract_rigid_transform transform target w = (Raise AttributeError, w).
Proof.
  intros Himg Htfm.
  unfold extract_rigid_transform, mbind, M_bind, Nifti1Image_load, ReadTransform,
    lift.
  rewrite Himg, Htfm. reflexivity.
Qed.

Lemma extract_rigid_transform_rigid_input_witness :
  (files sample_rejected !! ["data"; "fixed.nii.gz"] = Some (FImage sample_fixed)
   ∧ files sample_rejected !! ["work"; "rigid.mat"]
     = Some (FTransform (TEuler sample_A)))
  ∧ extract_rigid_transform ["work"; "rigid.mat"] ["data"; "fixed.nii.gz"]
      sample_rejected
    = (Raise AttributeError, sample_rejected).
Proof.
  split; [split; reflexivity|].
  exact (extract_rigid_transform_rigid_input sample_rejected ["work"; "rigid.mat"]
           ["data"; "fixed.nii.gz"] sample_A sample_fixed eq_refl eq_refl).
Defined.

(** ** More on the extraction from a composite transform *)

Lemma flatten_queue_leaves (t : Transform) : Forall is_leaf (flatten_queue t).
Proof.
  revert t. fix IH 1. intros [e|s|subs]; cbn.
  - repeat constructor.
  - repeat constructor.
  - revert subs. fix IHsubs 1. intros [|u subs]; cbn.
    + constructor.
    + apply Forall_app. split; [apply IH | apply IHsubs].
Qed.

Lemma flat_map_flatten_queue_leaves (subs : list Transform) :
  Forall is_leaf (flat_map flatten_queue subs).
Proof.
  induction subs as [|u subs IH]; cbn; [constructor|].
  apply Forall_app. split; [apply flatten_queue_leaves | exact IH].
Qed.

(** X9.  However deeply the composite is nested, what a successful
    [extract_from_composite] writes is never a composite transform. *)
Theorem extract_from_composite_writes_leaf (w w' : World) (composite written : Path) :
  extract_from_composite composite w = (Ok written, w') →
  ∃ t, files w' !! written = Some (FTransform t) ∧ is_leaf t.
Proof.
  unfold extract_from_composite, mbind, M_bind, ReadTransform, lift, WriteTransform.
  destruct (files w !! composite) as [[t|]|]; try discriminate.
  destruct t as [| |subs]; try discriminate. cbn.
  pose proof (flat_map_flatten_queue_leaves subs) as Hleaves.
  destruct (flat_map flatten_queue subs) as [|first others]; [discriminate|].
  cbn. intros [= <- <-]. exists first. split.
  - cbn. apply lookup_insert_eq.
  - inversion Hleaves; assumption.
Qed.

Lemma extract_from_composite_writes_leaf_witness :
  extract_from_composite ["work"; "oneComposite.h5"] sample_composites
  = (Ok ["work"; "oneRigid.mat"],
     set_files <[ ["work"; "oneRigid.mat"] := FTransform (TEuler sample_C) ]>
       sample_composites)
  ∧ ∃ t, files (set_files <[ ["work"; "oneRigid.mat"]
                              := FTransform (TEuler sample_C) ]> sample_composites)
           !! ["work"; "oneRigid.mat"] = Some (FTransform t)
         ∧ is_leaf t.
Proof.
  assert (extract_from_composite ["work"; "oneComposite.h5"] sample_composites
          = (Ok ["work"; "oneRigid.mat"],
             set_files <[ ["work"; "oneRigid.mat"] := FTransform (TEuler sample_C) ]>
               sample_composites)) as Hrun
    by (apply (extract_from_composite_run sample_composites
                 ["work"; "oneComposite.h5"] [TComposite [TEuler sample_C]]
                 (TEuler sample_C) []); reflexivity).
  split; [exact Hrun|].
  exact (extract_from_composite_writes_leaf sample_composites _
           ["work"; "oneComposite.h5"] ["work"; "oneRigid.mat"] Hrun).
Defined.

(** X10.  A file that holds a rigid or a similarity transform, not a
    composite, is refused: [AttributeError], and nothing is written. *)
Theorem extract_from_composite_not_composite (w : World) (composite : Path)
    (t : Transform) :
  files w !! composite = Some (FTransform t) →
  is_leaf t →
  extract_from_composite composite w = (Raise AttributeError, w).
Proof.
  intros Hfile Hleaf.
  unfold extract_from_composite, mbind, M_bind, ReadTransform, lift.
  rewrite Hfile. destruct t; [reflexivity | reflexivity | destruct Hleaf].
Qed.

Lemma extract_from_composite_not_composite_witness :
  (files sample_rejected !! ["work"; "rigid.mat"] = Some (FTransform (TEuler sample_A))
   ∧ is_leaf (TEuler sample_A))
  ∧ extract_from_composite ["work"; "rigid.mat"] sample_rejected
    = (Raise AttributeError, sample_rejected).
Proof.
  split; [split; [reflexivity | exact I]|].
  exact (extract_from_composite_not_composite sample_rejected ["work"; "rigid.mat"]
           (TEuler sample_A) eq_refl I).
Defined.

(** ** More on the composition *)

Lemma dot_assoc (a b c : mat3) : np.dot a (np.dot b c) = np.dot (np.dot a b) c.
Proof. vec_crush. Qed.

Lemma transpose_dot (a b : mat3) :
  np.transpose (np.dot a b) = np.dot (np.transpose b) (np.transpose a).
Proof. vec_crush. Qed.

Lemma dot_eye_l (m : mat3) : np.dot np.eye m = m.
Proof. vec_crush. Qed.

Lemma dot_eye_r (m : mat3) : np.dot m np.eye = m.
Proof. vec_crush. Qed.

Lemma det3_dot (a b : mat3) : det3 (np.dot a b) = det3 a * det3 b.
Proof. destruct a, b. unfold det3, np.dot. cbn. ring. Qed.

Lemma is_rotation_eye : is_rotation np.eye.
Proof. split; [vec_crush | unfold det3, np.eye; cbn; ring]. Qed.

Lemma is_rotation_dot (a b : mat3) :
  is_rotation a → is_rotation b → is_rotation (np.dot a b).
Proof.
  intros [Ha Hda] [Hb Hdb]. split.
  - rewrite transpose_dot, dot_assoc, <- (dot_assoc a b), Hb, dot_eye_r. exact Ha.
  - rewrite det3_dot, Hda, Hdb. ring.
Qed.

Lemma spec_compose_fold_rotation (ts : list Euler3DTransform) :
  Forall (λ T, is_rotation (e_matrix T)) ts →
  is_rotation (spec_compose_fold ts).1.
Proof.
  induction 1 as [|Tk ts HTk _ IH]; cbn; [apply is_rotation_eye|].
  destruct (spec_compose_fold ts) as [R t]. cbn in *.
  apply is_rotation_dot; assumption.
Qed.

Lemma spec_compose_fold_app (l1 l2 : list Euler3DTransform) :
  spec_compose_fold (l1 ++ l2)%list
  = (np.dot (spec_compose_fold l1).1 (spec_compose_fold l2).1,
     np.add (np.dotv (spec_compose_fold l1).1 (spec_compose_fold l2).2)
            (spec_compose_fold l1).2).
Proof.
  induction l1 as [|Tk l1 IH]; cbn.
  - destruct (spec_compose_fold l2) as [R2 t2]. cbn. f_equal; vec_crush.
  - rewrite IH. destruct (spec_compose_fold l1) as [R1 t1].
    destruct (spec_compose_fold l2) as [R2 t2]. destruct Tk as [Mk tk ck]. cbn.
    f_equal; vec_crush.
Qed.

Lemma sub_zeros_r (v : vec3) : np.sub v np.zeros = v.
Proof. vec_crush. Qed.

Lemma add_zeros_l (v : vec3) : np.add np.zeros v = v.
Proof. vec_crush. Qed.

Lemma dotv_zeros (m : mat3) : np.dotv m np.zeros = np.zeros.
Proof. vec_crush. Qed.

Lemma spec_compose_fold_pair (R1 R2 : mat3) (t1 t2 : vec3) :
  spec_compose_fold [Euler3D R1 t1 np.zeros; Euler3D R2 t2 np.zeros]
  = (np.dot R1 R2, np.add (np.dotv R1 t2) t1).
Proof.
  cbn [spec_compose_fold e_matrix e_translation e_center].
  rewrite !add_zeros_r, !sub_zeros_r, dotv_zeros, add_zeros_l, dot_eye_r.
  reflexivity.
Qed.

(** X11.  Composing in two steps is composing at once: the composition
    of the transform composed from [l1] and the transform composed from
    [l2] is the transform composed from [l1 ++ l2]. *)
Theorem compose_in_steps (l1 l2 : list Euler3DTransform) :
  ∃ c1 c2 c,
    compose_loaded (TEuler <$> l1) = Ok c1
    ∧ compose_loaded (TEuler <$> l2) = Ok c2
    ∧ compose_loaded (TEuler <$> (l1 ++ l2)%list) = Ok c
    ∧ compose_loaded [TEuler c1; TEuler c2] = Ok c.
Proof.
  exists (Euler3D (spec_compose_fold l1).1 (spec_compose_fold l1).2 np.zeros),
         (Euler3D (spec_compose_fold l2).1 (spec_compose_fold l2).2 np.zeros),
         (Euler3D (spec_compose_fold (l1 ++ l2)).1 (spec_compose_fold (l1 ++ l2)).2
                  np.zeros).
  split; [apply compose_loaded_rigid|].
  split; [apply compose_loaded_rigid|]. split; [apply compose_loaded_rigid|].
  change [TEuler ?a; TEuler ?b] with (TEuler <$> [a; b]).
  rewrite compose_loaded_rigid, spec_compose_fold_pair, spec_compose_fold_app.
  reflexivity.
Qed.

(** X12.  Rigid in, rigid out: when the matrix of every transform of the
    list is a rotation (orthonormal, determinant one), the composition
    succeeds and the matrix it writes is a rotation. *)
Theorem compose_transforms_rotation (w : World) (paths : list Path)
    (ts : list Euler3DTransform) (out : Path) :
  Forall2 (λ p T, files w !! p = Some (FTransform (TEuler T))) paths ts →
  Forall (λ T, is_rotation (e_matrix T)) ts →
  ∃ composed : Euler3DTransform,
    compose_transforms paths out w
    = (Ok (), set_files <[out := FTransform (TEuler composed)]> w)
    ∧ is_rotation (e_matrix composed).
Proof.
  intros Hread Hrot.
  exists (Euler3D (spec_compose_fold ts).1 (spec_compose_fold ts).2 np.zeros).
  split.
  - apply compose_transforms_run with (ts := TEuler <$> ts).
    + apply Forall2_fmap_r. exact Hread.
    + apply compose_loaded_rigid.
  - cbn. apply spec_compose_fold_rotation, Hrot.
Qed.

Lemma sample_rotations :
  Forall (λ T, is_rotation (e_matrix T)) [sample_A; sample_B; sample_C].
Proof.
  apply Forall_cons_2; [|apply Forall_cons_2; [|apply Forall_cons_2; [|apply Forall_nil_2]]];
    (split; apply (bool_decide_unpack _); vm_compute; exact I).
Qed.

Lemma compose_transforms_rotation_witness :
  ∃ composed : Euler3DTransform,
    compose_transforms [ ["tfm"; "A.mat"]; ["tfm"; "B.mat"]; ["tfm"; "C.mat"] ]
      ["tfm"; "ABC.mat"] sample_transforms
    = (Ok (), set_files <[ ["tfm"; "ABC.mat"] := FTransform (TEuler composed)]>
                sample_transforms)
    ∧ is_rotation (e_matrix composed).
Proof.
  apply (compose_transforms_rotation sample_transforms
           [ ["tfm"; "A.mat"]; ["tfm"; "B.mat"]; ["tfm"; "C.mat"] ]
           [sample_A; sample_B; sample_C] ["tfm"; "ABC.mat"]).
  - repeat constructor.
  - exact sample_rotations.
Defined.

Lemma compose_body_leaf (c : vec3) (state : mat3 * vec3) (t : Transform) :
  is_leaf t → ∃ state', compose_body c state t = Ok state'.
Proof.
  destruct state as [mat tr]. destruct t as [e|s|subs]; cbn; [eauto | eauto | tauto].
Qed.

Lemma compose_body_composite (c : vec3) (state : mat3 * vec3) (t : Transform) :
  ¬ is_leaf t → compose_body c state t = Raise AttributeError.
Proof.
  destruct state as [mat tr]. destruct t as [e|s|subs]; cbn; tauto.
Qed.

Lemma is_leaf_dec (t : Transform) : is_leaf t ∨ ¬ is_leaf t.
Proof. destruct t; cbn; tauto. Qed.

Lemma for_each_composite (c : vec3) (ts : list Transform) (state : mat3 * vec3) :
  Exists (λ t, ¬ is_leaf t) ts →
  for_each (compose_body c) ts state = Raise AttributeError.
Proof.
  intros Hex. revert state. induction Hex as [t ts Ht | t ts _ IH]; intros state.
  - cbn. rewrite (compose_body_composite _ _ _ Ht). reflexivity.
  - cbn. destruct (is_leaf_dec t) as [Hleaf | Hcomp].
    + destruct (compose_body_leaf c state t Hleaf) as [state' ->]. cbn. apply IH.
    + rewrite (compose_body_composite _ _ _ Hcomp). reflexivity.
Qed.

(** X13.  A composite transform among the files to compose makes
    [compose_transforms] fail with [AttributeError], wherever it stands
    in the list; nothing is written. *)
Theorem compose_transforms_composite_input (w : World) (paths : list Path)
    (ts : list Transform) (out : Path) :
  Forall2 (λ p t, files w !! p = Some (FTransform t)) paths ts →
  Exists (λ t, ¬ is_leaf t) ts →
  compose_transforms paths out w = (Raise AttributeError, w).
Proof.
  intros Hread Hex.
  unfold compose_transforms, mbind, M_bind.
  rewrite (mapM_ReadTransform _ _ _ Hread). unfold lift, compose_loaded.
  rewrite for_each_composite; [reflexivity|].
  apply Exists_exists. apply Exists_exists in Hex as (t & Hin & Ht).
  exists t. split; [|exact Ht]. apply elem_of_reverse, Hin.
Qed.

Lemma compose_transforms_composite_input_witness :
  compose_transforms [ ["tfm"; "A.mat"]; ["tfm"; "nested.h5"]; ["tfm"; "C.mat"] ]
    ["tfm"; "out.mat"] sample_mixed
  = (Raise AttributeError, sample_mixed).
Proof.
  apply (compose_transforms_composite_input sample_mixed _
           [TEuler sample_A; TComposite [TEuler sample_B]; TEuler sample_C]).
  - repeat constructor.
  - apply Exists_cons_tl, Exists_cons_hd. cbn. tauto.
Defined.

Lemma mapM_ReadTransform_unreadable (w : World) (paths : list Path) (p : Path) :
  p ∈ paths →
  (∀ t, files w !! p ≠ Some (FTransform t)) →
  mapM ReadTransform paths w = (Raise RuntimeError, w).
Proof.
  intros Hin Hp. induction paths as [|p0 paths IH]; [inversion Hin|].
  cbn. unfold mbind, M_bind. unfold ReadTransform at 1.
  destruct (files w !! p0) as [[t|img]|] eqn:Hp0; try reflexivity.
  apply elem_of_cons in Hin as [-> | Hin]; [destruct (Hp t Hp0)|].
  rewrite (IH Hin). reflexivity.
Qed.

(** X14.  A listed path at which no transform can be read (no file, or
    an image) makes [compose_transforms] fail with [RuntimeError],
    whatever the other files hold; nothing is written. *)
Theorem compose_transforms_unreadable (w : World) (paths : list Path) (p out : Path) :
  p ∈ paths →
  (∀ t, files w !! p ≠ Some (FTransform t)) →
  compose_transforms paths out w = (Raise RuntimeError, w).
Proof.
  intros Hin Hp. unfold compose_transforms, mbind, M_bind.
  rewrite (mapM_ReadTransform_unreadable w paths p Hin Hp). reflexivity.
Qed.

Lemma compose_transforms_unreadable_witness :
  compose_transforms [ ["tfm"; "A.mat"]; ["tfm"; "missing.mat"]; ["tfm"; "nested.h5"] ]
    ["tfm"; "out.mat"] sample_mixed
  = (Raise RuntimeError, sample_mixed).
Proof.
  apply (compose_transforms_unreadable sample_mixed _ ["tfm"; "missing.mat"]).
  - apply elem_of_cons. right. apply elem_of_cons. left. reflexivity.
  - intros t. discriminate.
Defined.

(** ** [apply_reference_min] *)

Lemma floor_idempotent (m x : Qc) :
  (let y := if decide (x < m) then m else x in
   if decide (y < m) then m else y)
  = (if decide (x < m) then m else x).
Proof.
  cbv zeta. destruct (decide (x < m)) as [Hlt | Hge].
  - destruct (decide (m < m)) as [Hmm | _]; [|reflexivity].
    destruct (Qclt_not_le _ _ Hmm). apply Qcle_refl.
  - destruct (decide (x < m)); [contradiction | reflexivity].
Qed.

Lemma apply_reference_min_run (w : World) (data_path ref_path out_path : Path)
    (data ref : Image) (ref_min : Qc) :
  files w !! data_path = Some (FImage data) →
  files w !! ref_path = Some (FImage ref) →
  np_min (fdata ref) = Ok ref_min →
  apply_reference_min data_path ref_path out_path w
  = (Ok (), set_files
              <[out_path := FImage (mkImage (shape data) (zooms data)
                   (map (λ x, if decide (x < ref_min) then ref_min else x)
                        (fdata data)))]> w).
Proof.
  intros Hdata Href Hmin.
  unfold apply_reference_min, mbind, M_bind, Nifti1Image_load, lift.
  rewrite Hdata, Href, Hmin. reflexivity.
Qed.



Lemma apply_reference_min_Ok (data_path ref_path out_path : Path) (w w' : World)
    (u : unit) :
  apply_reference_min data_path ref_path out_path w = (Ok u, w') →
  ∃ data ref ref_min,
    files w !! data_path = Some (FImage data)
    ∧ files w !! ref_path = Some (FImage ref)
    ∧ np_min (fdata ref) = Ok ref_min
    ∧ w' = set_files
             <[out_path := FImage (mkImage (shape data) (zooms data)
                  (map (λ x, if decide (x < ref_min) then ref_min else x)
                       (fdata data)))]> w.
Proof.
  unfold apply_reference_min, mbind, M_bind, Nifti1Image_load, lift, to_filename.
  destruct (files w !! data_path) as [[?|data]|]; try discriminate.
  destruct (files w !! ref_path) as [[?|ref]|]; try discriminate.
  destruct (np_min (fdata ref)) as [ref_min|] eqn:Hmin; [|discriminate].
  intros [= _ <-]. exists data, ref, ref_min. repeat split. exact Hmin.
Qed.

(** X16.  Flooring again changes nothing: after a successful
    [apply_reference_min] into [out_path], a second call on the volume
    just written, with the same reference, succeeds and leaves every file
    as it is. *)
Theorem apply_reference_min_idempotent (w w1 : World)
    (data_path ref_path out_path : Path) :
  ref_path ≠ out_path →
  apply_reference_min data_path ref_path out_path w = (Ok (), w1) →
  apply_reference_min out_path ref_path out_path w1 = (Ok (), w1).
Proof.
  intros Hne Hrun.
  apply apply_reference_min_Ok in Hrun as (data & ref & ref_min & _ & Href & Hmin & ->).
  erewrite (apply_reference_min_run _ out_path ref_path out_path _ ref ref_min);
    [| apply lookup_insert_eq | cbn; rewrite lookup_insert_ne by congruence; exact Href
     | exact Hmin ].
  f_equal. destruct w as [fs log]. unfold set_files. cbn. f_equal.
  rewrite insert_insert_eq. do 3 f_equal.
  rewrite map_map. apply map_ext. intros x. apply floor_idempotent.
Qed.

Lemma apply_reference_min_idempotent_witness :
  ∃ w1,
    apply_reference_min ["data"; "image.nii.gz"] ["data"; "reference.nii.gz"]
      ["data"; "floored.nii.gz"] sample_volumes = (Ok (), w1)
    ∧ apply_reference_min ["data"; "floored.nii.gz"] ["data"; "reference.nii.gz"]
        ["data"; "floored.nii.gz"] w1 = (Ok (), w1).
Proof.
  eexists. split.
  - apply (apply_reference_min_run sample_volumes _ _ _ sample_moving sample_fixed 0);
      reflexivity.
  - apply (apply_reference_min_idempotent sample_volumes _ ["data"; "image.nii.gz"]);
      [discriminate|].
    apply (apply_reference_min_run sample_volumes _ _ _ sample_moving sample_fixed 0);
      reflexivity.
Defined.

(** X17.  The two clamps agree below the maximum: on a volume none of
    whose voxels exceeds the maximum of the reference,
    [clip_to_input_range] and [apply_reference_min] written back to the
    same file do the same. *)
Theorem clip_is_floor_below_max (w : World) (img_path input_path : Path)
    (img input : Image) (hi : Qc) :
  files w !! img_path = Some (FImage img) →
  files w !! input_path = Some (FImage input) →
  np_max (fdata input) = Ok hi →
  Forall (λ x, x ≤ hi)%Qc (fdata img) →
  clip_to_input_range img_path input_path w
  = apply_reference_min img_path input_path img_path w.
Proof.
  intros Himg Hinput Hhi Hbelow.
  destruct (np_min (fdata input)) as [lo|e] eqn:Hlo;
    [|destruct (fdata input); discriminate].
  pose proof (np_min_le_max _ _ _ Hlo Hhi) as Hle.
  rewrite (apply_reference_min_run _ _ _ _ _ _ _ Himg Hinput Hlo).
  unfold clip_to_input_range, mbind, M_bind, Nifti1Image_load, lift, to_filename.
  rewrite Himg, Hinput, Hlo, Hhi. do 5 f_equal.
  apply map_ext_Forall. eapply Forall_impl; [exact Hbelow|].
  intros x Hx. cbn in Hx. unfold np.clip. cbv zeta.
  destruct (decide (x < lo)) as [_ | _].
  - destruct (decide (hi < lo)) as [Hlt | _]; [|reflexivity].
    destruct (Qclt_not_le _ _ Hlt Hle).
  - destruct (decide (hi < x)) as [Hlt | _]; [|reflexivity].
    destruct (Qclt_not_le _ _ Hlt Hx).
Qed.

Lemma clip_is_floor_below_max_witness :
  clip_to_input_range ["data"; "image.nii.gz"] ["data"; "reference.nii.gz"]
    sample_volumes
  = apply_reference_min ["data"; "image.nii.gz"] ["data"; "reference.nii.gz"]
      ["data"; "image.nii.gz"] sample_volumes.
Proof.
  apply (clip_is_floor_below_max sample_volumes _ _ sample_moving sample_fixed (q 10));
    [reflexivity | reflexivity | reflexivity |].
  apply Forall_cons_2; [|apply Forall_cons_2; [|apply Forall_cons_2;
    [|apply Forall_cons_2; [|apply Forall_nil_2]]]];
    apply (bool_decide_unpack _); vm_compute; exact I.
Defined.

(** X18.  A reference without voxels has no minimum:
    [apply_reference_min] fails with [ValueError] and writes nothing. *)
Theorem apply_reference_min_empty_reference (w : World)
    (data_path ref_path out_path : Path) (data ref : Image) :
  files w !! data_path = Some (FImage data) →
  files w !! ref_path = Some (FImage ref) →
  fdata ref = [] →
  ∃ msg, apply_reference_min data_path ref_path out_path w
         = (Raise (ValueError msg), w).
Proof.
  intros Hdata Href Hempty.
  unfold apply_reference_min, mbind, M_bind, Nifti1Image_load, lift.
  rewrite Hdata, Href, Hempty. cbn. eauto.
Qed.

Lemma apply_reference_min_empty_reference_witness :
  ∃ msg, apply_reference_min ["data"; "image.nii.gz"] ["data"; "empty.nii.gz"]
           ["data"; "floored.nii.gz"] sample_volumes
         = (Raise (ValueError msg), sample_volumes).
Proof.
  apply (apply_reference_min_empty_reference sample_volumes _ _ _
           sample_moving sample_empty); reflexivity.
Defined.

(** ** More on the orchestrator *)

(** *** What a run leaves alone, whatever its result *)

Lemma bind_inv {A B} (m : M A) (f : A → M B) (w w' : World) (r : result B) :
  (m ≫= f) w = (r, w') →
  (∃ e, m w = (Raise e, w') ∧ r = Raise e)
  ∨ (∃ a w0, m w = (Ok a, w0) ∧ f a w0 = (r, w')).
Proof.
  unfold mbind, M_bind. destruct (m w) as [[a|e] w0]; intros H.
  - right. eauto.
  - left. injection H as <- <-. eauto.
Qed.

Lemma writes_below_bind {A B} (dir : Path) (m : M A) (f : A → M B) :
  writes_below dir m → (∀ a, writes_below dir (f a)) → writes_below dir (m ≫= f).
Proof.
  intros Hm Hf w r w' H.
  apply bind_inv in H as [(e & H & _) | (a & w0 & H & Hk)].
  - exact (Hm _ _ _ H).
  - eapply same_outside_trans; [exact (Hm _ _ _ H) | exact (Hf _ _ _ _ Hk)].
Qed.

Lemma writes_below_ret {A} (dir : Path) (a : A) : writes_below dir (mret a).
Proof. intros w r w' [= _ <-]. apply same_outside_refl. Qed.

Lemma writes_below_raise {A} (dir : Path) (e : exception) :
  writes_below dir (raise e : M A).
Proof. intros w r w' [= _ <-]. apply same_outside_refl. Qed.

Lemma writes_below_lift {A} (dir : Path) (x : result A) : writes_below dir (lift x).
Proof. intros w r w' [= _ <-]. apply same_outside_refl. Qed.

Lemma writes_below_ReadTransform (dir path : Path) :
  writes_below dir (ReadTransform path).
Proof.
  intros w r w'. unfold ReadTransform.
  destruct (files w !! path) as [[?|?]|]; intros [= _ <-]; apply same_outside_refl.
Qed.

Lemma writes_below_load (dir path : Path) : writes_below dir (Nifti1Image_load path).
Proof.
  intros w r w'. unfold Nifti1Image_load.
  destruct (files w !! path) as [[?|?]|]; intros [= _ <-]; apply same_outside_refl.
Qed.

Lemma writes_below_WriteTransform (dir : Path) (part : string) (t : Transform) :
  writes_below dir (WriteTransform t (dir // part)).
Proof. intros w r w' [= _ <-]. apply same_outside_insert. Qed.

Lemma writes_below_to_filename (dir : Path) (part : string) (img : Image) :
  writes_below dir (to_filename img (dir // part)).
Proof. intros w r w' [= _ <-]. apply same_outside_insert. Qed.

Lemma writes_below_subprocess_run (program : ExternalProgram) (dir : Path)
    (part : string) (cmd : list string) (env : Env) :
  writes_below dir (subprocess_run program (dir // part) cmd env).
Proof.
  intros w r w'. unfold subprocess_run.
  destruct (program cmd env (files w)); intros [= _ <-].
  - apply same_outside_insert.
  - intros p _. reflexivity.
Qed.

Lemma writes_below_check_exists (dir : Path) (arg : string * option Path) :
  writes_below dir (check_exists arg).
Proof.
  intros w r w'. unfold check_exists, mbind, M_bind, path_exists.
  destruct arg.2; [destruct (bool_decide _)|]; intros [= _ <-];
    apply same_outside_refl.
Qed.

Lemma writes_below_mapM {A B} (dir : Path) (f : A → M B) (l : list A) :
  (∀ a, writes_below dir (f a)) → writes_below dir (mapM f l).
Proof.
  intros Hf. induction l as [|a l IH]; cbn [mapM].
  - apply writes_below_ret.
  - apply writes_below_bind; [apply Hf|]. intros b.
    apply writes_below_bind; [exact IH|]. intros bs. apply writes_below_ret.
Qed.

Create HintDb frame.

#[local] Hint Resolve writes_below_ret writes_below_raise writes_below_lift
  writes_below_ReadTransform writes_below_load writes_below_WriteTransform
  writes_below_to_filename writes_below_subprocess_run writes_below_check_exists
  : frame.

(** A sequence of steps, each of which writes below [dir] only. *)
Ltac frame_steps :=
  repeat first [ solve [auto with frame]
               | apply writes_below_bind; [solve [auto with frame] | intros ?] ].

Lemma writes_below_extract_rigid_transform (dir : Path) (part : string) (target : Path) :
  writes_below dir (extract_rigid_transform (dir // part) target).
Proof.
  unfold extract_rigid_transform, invscale_path, rigid_path. cbv zeta.
  rewrite parent_joinpath. frame_steps.
Qed.

Lemma writes_below_extract_from_composite (dir : Path) (part : string) :
  writes_below dir (extract_from_composite (dir // part)).
Proof.
  unfold extract_from_composite, composite_rigid_path.
  rewrite parent_joinpath. frame_steps.
Qed.

Lemma writes_below_compose_transforms (dir : Path) (part : string) (paths : list Path) :
  writes_below dir (compose_transforms paths (dir // part)).
Proof.
  unfold compose_transforms.
  apply writes_below_bind; [apply writes_below_mapM; auto with frame | intros ?].
  frame_steps.
Qed.

Lemma writes_below_clip_to_input_range (dir : Path) (part : string) (input : Path) :
  writes_below dir (clip_to_input_range (dir // part) input).
Proof. unfold clip_to_input_range. cbv zeta. frame_steps. Qed.

#[local] Hint Resolve writes_below_extract_rigid_transform
  writes_below_extract_from_composite writes_below_compose_transforms
  writes_below_clip_to_input_range : frame.

Lemma writes_below_initial_registration (ants : Ants) (parsed_args : Namespace)
    (env : Env) :
  writes_below (temp_dir parsed_args) (initial_registration ants parsed_args env).
Proof.
  unfold initial_registration. cbv zeta. destruct (scale_fixed parsed_args).
  - apply writes_below_bind; [auto with frame | intros ?].
    apply writes_below_bind; [auto with frame | intros [inv_scale rigid_transform]].
    apply writes_below_bind; [auto with frame | intros ?].
    apply writes_below_bind; [auto with frame | intros ?].
    apply writes_below_bind; [| intros ?; auto with frame].
    destruct (fixed_regmask parsed_args); frame_steps.
  - frame_steps.
Qed.

Lemma writes_below_register (ants : Ants) (parsed_args : Namespace) (env : Env) :
  writes_below (temp_dir parsed_args) (register ants parsed_args env).
Proof.
  unfold register. cbv zeta.
  apply writes_below_bind; [apply writes_below_mapM; auto with frame | intros ?].
  apply writes_below_bind; [destruct (xorb _ _); auto with frame | intros ?].
  apply writes_below_bind; [auto with frame | intros ?].
  apply writes_below_bind; [auto with frame | intros ?].
  apply writes_below_bind; [apply writes_below_initial_registration |].
  intros [[[init fixed] bm] rm].
  frame_steps.
Qed.

Lemma writes_below_combine_transforms (parsed_args : Namespace) (rigid_mat : Path) :
  writes_below (temp_dir parsed_args) (combine_transforms parsed_args rigid_mat).
Proof.
  unfold combine_transforms. cbv zeta.
  destruct (fixed_transform parsed_args); frame_steps.
Qed.

(** *** The argument checks *)

Lemma bind_Raise {A B} (m : M A) (f : A → M B) (w w' : World) (e : exception) :
  m w = (Raise e, w') → (m ≫= f) w = (Raise e, w').
Proof. unfold mbind, M_bind. intros ->. reflexivity. Qed.

Lemma bind_run {A B} (m : M A) (f : A → M B) (w w0 : World) (a : A) :
  m w = (Ok a, w0) → (m ≫= f) w = f a w0.
Proof. unfold mbind, M_bind. intros ->. reflexivity. Qed.

Lemma check_exists_present (w : World) (argname : string) (o : option Path) :
  (∀ p, o = Some p → is_Some (files w !! p)) →
  check_exists (argname, o) w = (Ok (), w).
Proof.
  intros Hp. unfold check_exists, mbind, M_bind, path_exists. cbn.
  destruct o as [p|]; [|reflexivity].
  rewrite bool_decide_eq_true_2 by (apply Hp; reflexivity). reflexivity.
Qed.

Lemma check_exists_missing (w : World) (argname : string) (p : Path) :
  files w !! p = None →
  check_exists (argname, Some p) w
  = (Raise (ValueError (py.replace "_" "-" argname +:+ " does not exist.")), w).
Proof.
  intros Hp. unfold check_exists, mbind, M_bind, path_exists. cbn.
  rewrite bool_decide_eq_false_2; [reflexivity|].
  rewrite Hp. intros [? [=]].
Qed.

Lemma mapM_check_exists_missing (l : list (string * option Path)) (w : World)
    (argname : string) (p : Path) :
  (argname, Some p) ∈ l →
  files w !! p = None →
  ∃ argname' p',
    (argname', Some p') ∈ l
    ∧ files w !! p' = None
    ∧ mapM check_exists l w
      = (Raise (ValueError (py.replace "_" "-" argname' +:+ " does not exist.")), w).
Proof.
  intros Hin Hp. induction l as [|[n o] l IH]; [inversion Hin|].
  assert (∀ p0, o = Some p0 → files w !! p0 = None
          → ∃ argname' p',
              (argname', Some p') ∈ (n, o) :: l
              ∧ files w !! p' = None
              ∧ mapM check_exists ((n, o) :: l) w
                = (Raise (ValueError (py.replace "_" "-" argname'
                                      +:+ " does not exist.")), w)) as Hhere.
  { intros p0 -> Hp0. exists n, p0. split; [apply elem_of_cons; auto|].
    split; [exact Hp0|]. cbn [mapM]. apply bind_Raise, check_exists_missing, Hp0. }
  destruct o as [p0|].
  - destruct (files w !! p0) as [f|] eqn:Hp0; [|exact (Hhere p0 eq_refl Hp0)].
    apply elem_of_cons in Hin as [[= -> ->] | Hin]; [congruence|].
    destruct (IH Hin) as (n' & p' & Hin' & Hp' & Hrun).
    exists n', p'. split; [apply elem_of_cons; auto|]. split; [exact Hp'|].
    cbn [mapM]. rewrite (bind_run _ _ w w ()).
    + apply bind_Raise, Hrun.
    + apply check_exists_present. intros ? [= <-]. rewrite Hp0. eauto.
  - apply elem_of_cons in Hin as [[=] | Hin].
    destruct (IH Hin) as (n' & p' & Hin' & Hp' & Hrun).
    exists n', p'. split; [apply elem_of_cons; auto|]. split; [exact Hp'|].
    cbn [mapM]. rewrite (bind_run _ _ w w ()).
    + apply bind_Raise, Hrun.
    + apply check_exists_present. intros ? [=].
Qed.

Lemma mapM_check_exists_present (l : list (string * option Path)) (w : World) :
  Forall (λ arg, ∀ p, arg.2 = Some p → is_Some (files w !! p)) l →
  ∃ us, mapM check_exists l w = (Ok us, w).
Proof.
  induction 1 as [|[n o] l Hhere _ [us IH]]; cbn [mapM]; [eexists; reflexivity|].
  exists (() :: us).
  rewrite (bind_run _ _ w w ()) by (apply check_exists_present, Hhere).
  rewrite (bind_run _ _ w w us) by exact IH. reflexivity.
Qed.

(** X19.  A file named on the command line that does not exist stops
    [main] at once: it fails with [ValueError], the message naming a
    missing argument with dashes for underscores, before any command is
    issued and before any file is written. *)
Theorem main_missing_input (ants : Ants) (parsed_args : Namespace) (w : World)
    (argname : string) (p : Path) :
  (argname, Some p) ∈ named_inputs parsed_args →
  files w !! p = None →
  ∃ argname' p',
    (argname', Some p') ∈ named_inputs parsed_args
    ∧ files w !! p' = None
    ∧ main ants parsed_args w
      = (Raise (ValueError (py.replace "_" "-" argname' +:+ " does not exist.")), w).
Proof.
  intros Hin Hp.
  destruct (mapM_check_exists_missing _ w argname p Hin Hp)
    as (n' & p' & Hin' & Hp' & Hrun).
  exists n', p'. split; [exact Hin'|]. split; [exact Hp'|].
  unfold main. cbv zeta. apply bind_Raise. unfold register. apply bind_Raise.
  exact Hrun.
Qed.

Lemma main_missing_input_witness :
  ∃ argname' p',
    (argname', Some p') ∈ named_inputs sample_request
    ∧ files sample_volumes !! p' = None
    ∧ main mock_ants sample_request sample_volumes
      = (Raise (ValueError (py.replace "_" "-" argname' +:+ " does not exist.")),
         sample_volumes).
Proof.
  apply (main_missing_input mock_ants sample_request sample_volumes
           "fixed_brainmask" ["data"; "brainmask.nii.gz"]).
  - unfold named_inputs. do 2 (apply elem_of_cons; right).
    apply elem_of_cons. left. reflexivity.
  - reflexivity.
Defined.

(** X20.  With every named file in place, a prior transform without a
    prior target, or a prior target without a prior transform, stops
    [main] with [ValueError] before any command is issued and before any
    file is written. *)
Theorem main_transform_without_target (ants : Ants) (parsed_args : Namespace)
    (w : World) :
  Forall (λ arg, ∀ p, arg.2 = Some p → is_Some (files w !! p))
         (named_inputs parsed_args) →
  (fixed_transform parsed_args = None ∧ is_Some (fixed_target parsed_args))
  ∨ (is_Some (fixed_transform parsed_args) ∧ fixed_target parsed_args = None) →
  main ants parsed_args w
  = (Raise (ValueError
       "fixed-transform and fixed-target must both be specified or not at all."), w).
Proof.
  intros Hfiles Hone.
  destruct (mapM_check_exists_present _ w Hfiles) as [us Hchecks].
  unfold main. cbv zeta. apply bind_Raise. unfold register.
  rewrite (bind_run _ _ w w us) by exact Hchecks.
  apply bind_Raise.
  destruct Hone as [[-> [tgt ->]] | [[prior ->] ->]]; reflexivity.
Qed.

Lemma main_transform_without_target_witness :
  main mock_ants sample_request_no_target sample_start
  = (Raise (ValueError
       "fixed-transform and fixed-target must both be specified or not at all."),
     sample_start).
Proof.
  apply (main_transform_without_target mock_ants sample_request_no_target sample_start).
  - unfold named_inputs, sample_request_no_target. cbn.
    repeat (apply Forall_cons_2; [intros p [= <-]; eexists; reflexivity|]).
    apply Forall_nil_2.
  - right. split; [eexists; reflexivity | reflexivity].
Defined.

(** *** The end of a run *)

Lemma lookup_rmtree_outside (dir p : Path) (fs : gmap Path File) :
  ¬ dir `prefix_of` p →
  filter (λ kv : Path * File, ¬ dir `prefix_of` kv.1) fs !! p = fs !! p.
Proof.
  intros Hp. destruct (fs !! p) as [f|] eqn:Hf.
  - apply map_lookup_filter_Some. split; [exact Hf | exact Hp].
  - apply map_lookup_filter_None. left. exact Hf.
Qed.

Lemma lookup_rmtree_inside (dir p : Path) (fs : gmap Path File) :
  dir `prefix_of` p →
  filter (λ kv : Path * File, ¬ dir `prefix_of` kv.1) fs !! p = None.
Proof.
  intros Hp. apply map_lookup_filter_None. right. intros f _ Hnot. exact (Hnot Hp).
Qed.

Lemma joinpath_prefix (dir : Path) (part : string) : dir `prefix_of` (dir // part).
Proof. exists [part]. reflexivity. Qed.

(** What [combine_transforms] yields: the transform to publish is a
    [.mat] file of the temporary directory, and it is there. *)
Lemma combine_transforms_Ok (parsed_args : Namespace) (w1 w2 : World)
    (transform_to_use : Path) (target_to_use : option Path) (refined : Transform) :
  files w1 !! (temp_dir parsed_args // "outputRigid.mat") = Some (FTransform refined) →
  combine_transforms parsed_args (temp_dir parsed_args // "outputRigid.mat") w1
  = (Ok (transform_to_use, target_to_use), w2) →
  calls w2 = calls w1
  ∧ (∃ g, files w2 !! transform_to_use = Some g)
  ∧ match fixed_transform parsed_args with
    | Some _ =>
        transform_to_use = temp_dir parsed_args // "combined.mat"
        ∧ target_to_use = fixed_target parsed_args
    | None =>
        transform_to_use = temp_dir parsed_args // "outputRigid.mat"
        ∧ target_to_use = Some (fixed_image parsed_args)
    end.
Proof.
  intros Href. unfold combine_transforms. cbv zeta.
  destruct (fixed_transform parsed_args) as [prior|]; intros H.
  - apply bind_Ok in H as (? & w2' & Hcompose & Hret). injection Hret as <- <- <-.
    apply compose_transforms_Ok in Hcompose as (ts & composed & _ & _ & ->).
    split; [reflexivity|]. split; [|split; reflexivity].
    eexists. cbn. apply lookup_insert_eq.
  - injection H as <- <- <-. split; [reflexivity|]. split; [eauto | split; reflexivity].
Qed.

Lemma rename_Raise (src dst : Path) (w w' : World) (e : exception) :
  rename src dst w = (Raise e, w') → w' = w.
Proof. unfold rename. destruct (files w !! src); intros [= _ <-]. reflexivity. Qed.

(** X21.  A run that fails has written in its temporary directory only:
    every other file is as it was, whichever step failed and whatever
    the ANTs programs did. *)
Theorem main_failure_frame (ants : Ants) (parsed_args : Namespace) (w w' : World)
    (e : exception) :
  main ants parsed_args w = (Raise e, w') →
  same_outside (temp_dir parsed_args) w w'.
Proof.
  unfold main. cbv zeta. intros H.
  apply bind_inv in H as [(? & H & _) | (rigid_mat & w1 & Hreg & H)];
    [exact (writes_below_register _ _ _ _ _ _ H)|].
  pose proof (writes_below_register _ _ _ _ _ _ Hreg) as F1.
  destruct (register_Ok _ _ _ _ _ _ Hreg) as (-> & [refined Href] & _).
  apply bind_inv in H as [(? & H & _) | ([transform_to_use target_to_use] & w2 & Hcomb & H)];
    [exact (same_outside_trans _ _ _ _ F1 (writes_below_combine_transforms _ _ _ _ _ H))|].
  pose proof (same_outside_trans _ _ _ _ F1
                (writes_below_combine_transforms _ _ _ _ _ Hcomb)) as F2.
  destruct (combine_transforms_Ok _ _ _ _ _ _ Href Hcomb) as (_ & [g Hg] & Hwhich).
  assert (∃ nm, transform_to_use = temp_dir parsed_args // nm ∧ nm ≠ "output.nii.gz")
    as (nm & -> & Hnm).
  { destruct (fixed_transform parsed_args); destruct Hwhich as [-> _];
      eexists; (split; [reflexivity | discriminate]). }
  apply bind_inv in H as [(? & H & _) | (target & w3 & Htarget & H)].
  { destruct target_to_use; [discriminate H|]. injection H as _ <-. exact F2. }
  assert (w3 = w2) as ->
    by (destruct target_to_use; [|discriminate Htarget];
        injection Htarget as _ <-; reflexivity).
  apply bind_inv in H as [(? & H & _) | (? & w4 & Hrun & H)];
    [exact (same_outside_trans _ _ _ _ F2 (writes_below_subprocess_run _ _ _ _ _ _ _ _ H))|].
  pose proof (same_outside_trans _ _ _ _ F2
                (writes_below_subprocess_run _ _ _ _ _ _ _ _ Hrun)) as F4.
  apply bind_inv in H as [(? & H & _) | (? & w5 & Hclip & H)];
    [exact (same_outside_trans _ _ _ _ F4
              (writes_below_clip_to_input_range _ _ _ _ _ _ H))|].
  pose proof (same_outside_trans _ _ _ _ F4
                (writes_below_clip_to_input_range _ _ _ _ _ _ Hclip)) as F5.
  apply bind_inv in H as [(? & H & _) | (? & w6 & Hmove & H)];
    [apply rename_Raise in H as ->; exact F5|].
  exfalso.
  apply subprocess_run_Ok in Hrun as [f ->].
  apply clip_to_input_range_Ok in Hclip as [img ->].
  apply rename_Ok in Hmove as (h & _ & ->).
  apply bind_inv in H as [(? & H & _) | (? & w7 & _ & H)]; [|discriminate H].
  unfold rename in H. cbn in H.
  rewrite lookup_before_publish, Hg in H by exact Hnm. discriminate H.
Qed.

Lemma main_failure_frame_witness :
  main failing_ants sample_request sample_start = (Raise CalledProcessError, sample_failed)
  ∧ same_outside ["out"; "fgatir__mprage"] sample_start sample_failed.
Proof.
  assert (main failing_ants sample_request sample_start
          = (Raise CalledProcessError, sample_failed)) as Hrun
    by (vm_compute; reflexivity).
  split; [exact Hrun|].
  exact (main_failure_frame failing_ants sample_request sample_start sample_failed
           CalledProcessError Hrun).
Defined.

(** A successful run of [main], step by step: the worlds after
    [register] and after [combine_transforms], the file the last command
    produced, the clipped image and the published transform. *)
Lemma main_Ok_inv (ants : Ants) (parsed_args : Namespace) (w w' : World) (u : unit) :
  main ants parsed_args w = (Ok u, w') →
  ∃ (w1 w2 : World) (transform_to_use target : Path) (f g : File) (img : Image),
    register ants parsed_args (ants_env parsed_args) w
    = (Ok (temp_dir parsed_args // "outputRigid.mat"), w1)
    ∧ combine_transforms parsed_args (temp_dir parsed_args // "outputRigid.mat") w1
      = (Ok (transform_to_use, Some target), w2)
    ∧ (∃ nm, transform_to_use = temp_dir parsed_args // nm
             ∧ nm ≠ "output.nii.gz" ∧ name_suffix nm = ".mat")
    ∧ files w2 !! transform_to_use = Some g
    ∧ clip_to_input_range (temp_dir parsed_args // "output.nii.gz")
        (moving_image parsed_args)
        (mkWorld (<[temp_dir parsed_args // "output.nii.gz" := f]> (files w2))
           (calls w2 ++ [transform_cmd (temp_dir parsed_args)
                           (moving_image parsed_args) target transform_to_use]))
      = (Ok (),
         mkWorld (<[temp_dir parsed_args // "output.nii.gz" := FImage img]>
                    (<[temp_dir parsed_args // "output.nii.gz" := f]> (files w2)))
           (calls w2 ++ [transform_cmd (temp_dir parsed_args)
                           (moving_image parsed_args) target transform_to_use]))
    ∧ w' = mkWorld
             (filter (λ kv : Path * File, ¬ temp_dir parsed_args `prefix_of` kv.1)
                (<[output_dir parsed_args // (moving_stem parsed_args +:+ "_reg.mat")
                   := g]>
                   (delete transform_to_use
                      (<[published_image parsed_args := FImage img]>
                         (delete (temp_dir parsed_args // "output.nii.gz")
                            (<[temp_dir parsed_args // "output.nii.gz" := FImage img]>
                               (<[temp_dir parsed_args // "output.nii.gz" := f]>
                                  (files w2))))))))
             (calls w2 ++ [transform_cmd (temp_dir parsed_args)
                             (moving_image parsed_args) target transform_to_use]).
Proof.
  unfold main. cbv zeta. intros H.
  apply bind_Ok in H as (rigid_mat & w1 & Hreg & H).
  destruct (register_Ok _ _ _ _ _ _ Hreg) as (-> & [refined Href] & _).
  apply bind_Ok in H as ([transform_to_use target_to_use] & w2 & Hcomb & H).
  apply bind_Ok in H as (target & w3 & Htarget & H).
  destruct target_to_use as [prior_target|]; [|discriminate Htarget].
  injection Htarget as -> <-.
  apply bind_Ok in H as (? & w4 & Hrun & H).
  apply bind_Ok in H as ([] & w5 & Hclip & H).
  apply bind_Ok in H as (? & w6 & Hmove & H).
  apply bind_Ok in H as (? & w7 & Hpublish & H).
  unfold rmtree in H. injection H as _ <-.
  apply subprocess_run_Ok in Hrun as [f ->].
  destruct (clip_to_input_range_Ok _ _ _ _ _ Hclip) as [img ->].
  apply rename_Ok in Hmove as (h & Hh & ->).
  apply rename_Ok in Hpublish as (g & Hg & ->).
  cbn in Hh. rewrite lookup_insert_eq in Hh. injection Hh as <-.
  destruct (combine_transforms_Ok _ _ _ _ _ _ Href Hcomb) as (_ & _ & Hwhich).
  assert (∃ nm, transform_to_use = temp_dir parsed_args // nm
                ∧ nm ≠ "output.nii.gz" ∧ name_suffix nm = ".mat")
    as (nm & -> & Hnm & Hsuffix).
  { destruct (fixed_transform parsed_args); destruct Hwhich as [-> _];
      eexists; (split; [reflexivity | split; [discriminate | reflexivity]]). }
  cbn in Hg. rewrite lookup_before_publish in Hg by exact Hnm.
  exists w1, w2, (temp_dir parsed_args // nm), target, f, g, img.
  split; [exact Hreg|]. split; [exact Hcomb|]. split; [eauto|].
  split; [exact Hg|]. split; [exact Hclip|].
  rewrite published_transform_mat by exact Hsuffix. reflexivity.
Qed.



(** X22.  After a successful run nothing is left at or below the
    temporary directory, the published transform is in place, and every
    file outside the temporary directory other than the two published
    ones is as it was before the run. *)
Theorem main_success_cleanup (ants : Ants) (parsed_args : Namespace) (w w' : World) :
  main ants parsed_args w = (Ok (), w') →
  (∀ p, temp_dir parsed_args `prefix_of` p → files w' !! p = None)
  ∧ is_Some (files w' !! (output_dir parsed_args
                          // (moving_stem parsed_args +:+ "_reg.mat")))
  ∧ (∀ p, ¬ temp_dir parsed_args `prefix_of` p →
          p ≠ published_image parsed_args →
          p ≠ output_dir parsed_args // (moving_stem parsed_args +:+ "_reg.mat") →
          files w' !! p = files w !! p).
Proof.
  intros H.
  pose proof (main_Ok_inv _ _ _ _ _ H)
    as (w1 & w2 & ttu & target & f & g & img & Hreg & Hcomb & (nm & -> & Hnm & _)
        & Hg & _ & ->).
  split; [|split].
  - intros p Hp. cbn. apply lookup_rmtree_inside, Hp.
  - cbn. rewrite lookup_rmtree_outside
      by apply (published_outside_temp_dir parsed_args ".mat").
    rewrite lookup_insert_eq. eauto.
  - intros p Hp HpI HpT. cbn. rewrite lookup_rmtree_outside by exact Hp.
    assert (∀ part, temp_dir parsed_args // part ≠ p) as Hout
      by (intros part <-; apply Hp, joinpath_prefix).
    rewrite lookup_insert_ne by congruence.
    rewrite lookup_delete_ne by apply Hout.
    rewrite lookup_insert_ne by congruence.
    rewrite lookup_delete_ne by apply Hout.
    rewrite !lookup_insert_ne by apply Hout.
    etrans; [exact (writes_below_combine_transforms _ _ _ _ _ Hcomb p Hp)|].
    exact (writes_below_register _ _ _ _ _ _ Hreg p Hp).
Qed.

Lemma main_success_cleanup_witness :
  main mock_ants sample_request sample_start = (Ok (), sample_finish)
  ∧ (∀ p, ["out"; "fgatir__mprage"] `prefix_of` p → files sample_finish !! p = None)
  ∧ is_Some (files sample_finish !! ["out"; "fgatir_reg.mat"])
  ∧ (∀ p, ¬ ["out"; "fgatir__mprage"] `prefix_of` p →
          p ≠ ["out"; "fgatir_reg.nii.gz"] →
          p ≠ ["out"; "fgatir_reg.mat"] →
          files sample_finish !! p = files sample_start !! p).
Proof.
  assert (main mock_ants sample_request sample_start = (Ok (), sample_finish)) as Hrun
    by (vm_compute; reflexivity).
  split; [exact Hrun|].
  exact (main_success_cleanup mock_ants sample_request sample_start sample_finish Hrun).
Defined.



(** *** The commands of a run *)

Lemma invscale_path_ai (dir : Path) : invscale_path (dir // "ai.mat") = dir // "ai_invscale.mat".
Proof.
  unfold invscale_path, stem, suffix. rewrite parent_joinpath, name_joinpath. reflexivity.
Qed.

Lemma rigid_path_ai (dir : Path) : rigid_path (dir // "ai.mat") = dir // "ai_rigid.mat".
Proof.
  unfold rigid_path, stem, suffix. rewrite parent_joinpath, name_joinpath. reflexivity.
Qed.

Lemma initial_registration_calls (ants : Ants) (parsed_args : Namespace) (env : Env)
    (w w' : World) (init fixed bm : Path) (rm : option Path) :
  initial_registration ants parsed_args env w = (Ok (init, fixed, bm, rm), w') →
  (calls w' ++ [reg_cmd (temp_dir parsed_args) init fixed (moving_image parsed_args)
                  rm bm])%list
  = (calls w ++ initial_commands parsed_args)%list.
Proof.
  unfold initial_registration, initial_commands. cbv zeta.
  destruct (scale_fixed parsed_args); intros H.
  - apply bind_Ok in H as (? & w1 & H1 & H). apply subprocess_run_Ok in H1 as [f1 ->].
    apply bind_Ok in H as ([inv_scale rigid_transform] & w2 & H2 & H).
    apply extract_rigid_transform_Ok in H2 as [[= -> ->] (f & g & ->)].
    rewrite invscale_path_ai, rigid_path_ai in H.
    apply bind_Ok in H as (? & w3 & H3 & H). apply subprocess_run_Ok in H3 as [f3 ->].
    apply bind_Ok in H as (? & w4 & H4 & H). apply subprocess_run_Ok in H4 as [f4 ->].
    apply bind_Ok in H as (regmask & w5 & H5 & H). injection H as <- <- <- <- <-.
    destruct (fixed_regmask parsed_args) as [mask|].
    + apply bind_Ok in H5 as (? & w6 & H6 & H5). injection H5 as <- <-.
      apply subprocess_run_Ok in H6 as [f6 ->].
      cbn [calls set_files]. rewrite <- !app_assoc. reflexivity.
    + injection H5 as <- <-. cbn [calls set_files]. rewrite <- !app_assoc. reflexivity.
  - apply bind_Ok in H as (? & w1 & H1 & H). injection H as <- <- <- <- <-.
    apply subprocess_run_Ok in H1 as [f1 ->].
    cbn [calls]. rewrite <- !app_assoc. reflexivity.
Qed.

Lemma register_calls (ants : Ants) (parsed_args : Namespace) (env : Env)
    (w w1 : World) (rigid_mat : Path) :
  register ants parsed_args env w = (Ok rigid_mat, w1) →
  calls w1
  = (calls w
     ++ [ ResampleImageBySpacing_cmd (moving_image parsed_args)
            (temp_dir parsed_args // "moving.nii.gz");
          ResampleImageBySpacing_cmd (fixed_image parsed_args)
            (temp_dir parsed_args // "fixed.nii.gz") ]
     ++ initial_commands parsed_args)%list.
Proof.
  unfold register. cbv zeta. intros H.
  apply bind_Ok in H as (? & w_a & Ha & H). apply mapM_check_exists_Ok in Ha as ->.
  apply bind_Ok in H as (? & w_b & Hb & H).
  assert (w_b = w) as ->.
  { destruct (xorb _ _); [discriminate|]. injection Hb as _ <-. reflexivity. }
  apply bind_Ok in H as (? & w_c & Hc & H). apply subprocess_run_Ok in Hc as [fc ->].
  apply bind_Ok in H as (? & w_d & Hd & H). apply subprocess_run_Ok in Hd as [fd ->].
  apply bind_Ok in H as ([[[init fixed] bm] rm] & w_e & He & H).
  apply initial_registration_calls in He. cbn [calls] in He.
  apply bind_Ok in H as (? & w_f & Hf & H). apply subprocess_run_Ok in Hf as [ff ->].
  apply extract_from_composite_Ok in H as [_ [first ->]].
  cbn [calls set_files]. rewrite He, <- !app_assoc. reflexivity.
Qed.

(** X24.  The commands of a successful run, all of them and in order:
    the two subsamplings, the initial registration (with [--scale-fixed]
    the similarity search and the rescaling of the fixed image and of
    its masks, else the rigid search), the two-stage registration
    started from [ai_rigid.mat], and last the resampling of the moving
    image, onto the prior target with the combined transform when a
    prior transform is given and onto the fixed image with the refined
    transform when not. *)
Theorem main_commands (ants : Ants) (parsed_args : Namespace) (w w' : World) :
  main ants parsed_args w = (Ok (), w') →
  calls w'
  = (calls w
     ++ [ ResampleImageBySpacing_cmd (moving_image parsed_args)
            (temp_dir parsed_args // "moving.nii.gz");
          ResampleImageBySpacing_cmd (fixed_image parsed_args)
            (temp_dir parsed_args // "fixed.nii.gz") ]
     ++ initial_commands parsed_args
     ++ [ match fixed_transform parsed_args, fixed_target parsed_args with
          | Some _, Some prior_target =>
              transform_cmd (temp_dir parsed_args) (moving_image parsed_args)
                prior_target (temp_dir parsed_args // "combined.mat")
          | _, _ =>
              transform_cmd (temp_dir parsed_args) (moving_image parsed_args)
                (fixed_image parsed_args) (temp_dir parsed_args // "outputRigid.mat")
          end ])%list.
Proof.
  intros H.
  pose proof (main_Ok_inv _ _ _ _ _ H)
    as (w1 & w2 & ttu & target & f & g & img & Hreg & Hcomb & _ & _ & _ & ->).
  destruct (register_Ok _ _ _ _ _ _ Hreg) as (_ & [refined Href] & _).
  destruct (combine_transforms_Ok _ _ _ _ _ _ Href Hcomb) as (Hcalls & _ & Hwhich).
  cbn [calls]. rewrite Hcalls, (register_calls _ _ _ _ _ _ Hreg), <- !app_assoc.
  do 3 f_equal.
  destruct (fixed_transform parsed_args) as [prior|].
  - destruct Hwhich as [-> <-]. reflexivity.
  - destruct Hwhich as [-> [= ->]]. reflexivity.
Qed.

Lemma main_commands_witness :
  main mock_ants sample_request sample_start = (Ok (), sample_finish)
  ∧ calls sample_finish
    = (calls sample_start
       ++ [ ResampleImageBySpacing_cmd ["data"; "fgatir.nii.gz"]
              ["out"; "fgatir__mprage"; "moving.nii.gz"];
            ResampleImageBySpacing_cmd ["data"; "mprage.nii.gz"]
              ["out"; "fgatir__mprage"; "fixed.nii.gz"] ]
       ++ initial_commands sample_request
       ++ [ transform_cmd ["out"; "fgatir__mprage"] ["data"; "fgatir.nii.gz"]
              ["atlas"; "mprage_reg.nii.gz"]
              ["out"; "fgatir__mprage"; "combined.mat"] ])%list.
Proof.
  assert (main mock_ants sample_request sample_start = (Ok (), sample_finish)) as Hrun
    by (vm_compute; reflexivity).
  split; [exact Hrun|].
  exact (main_commands mock_ants sample_request sample_start sample_finish Hrun).
Defined.
